(** * Routine blueprints, fill instructions and course-file helpers

    A shallow embedding of the course-file tools.  The timetable ("routine")
    part: [get_document_context] / [routine_get_document_context], which
    describe the first table of a document as a blueprint of merged-cell
    regions, and [fill_and_save_routine] / [routine_fill_and_save_routine],
    which execute a list of fill instructions on a clean template.  The text
    helpers around it: [deduplicate_content], [parse_api_response] and
    [read_docx_content] of the question-paper analysis, [clean_text] and
    [get_sort_key] of the course tables, and [extract_course_details],
    [extract_semester_from_text], [normalize_string] and the search for a
    generated course table of the integrated generator.

    The document library is not part of the sources.  A table is modelled by
    what the code asks of it: the number of rows and columns, the cell found
    at a grid coordinate (the coordinates of a merged cell share one cell,
    here one token), and the text and width of a cell.  What the code holds
    in its variables are proxy objects for these cells; the library builds
    them anew each time the cells of the table are asked for, and they are
    compared by object identity. *)

From Stdlib Require Import ZArith String Ascii List Lia Bool Arith Sorted.
From Stdlib Require Import Permutation.
From stdpp Require Import gmap strings list.

Import ListNotations.
Local Open Scope string_scope.
Local Open Scope list_scope.

(** ** Python strings *)

Module PyStr.

(** Characters are code points below 256; [isspace] is Python's
    [str.isspace] on that range. *)
Definition isspace (a : ascii) : bool :=
  let n := nat_of_ascii a in
  ((9 <=? n)%nat && (n <=? 13)%nat) || ((28 <=? n)%nat && (n <=? 32)%nat)
  || (n =? 133)%nat || (n =? 160)%nat.

Definition newline : ascii := ascii_of_nat 10.
Definition space : ascii := ascii_of_nat 32.
Definition nl : string := String newline EmptyString.

Fixpoint lstrip_chars (l : list ascii) : list ascii :=
  match l with
  | [] => []
  | a :: l' => if isspace a then lstrip_chars l' else l
  end.

Definition rstrip_chars (l : list ascii) : list ascii :=
  rev (lstrip_chars (rev l)).

(** [s.strip()] *)
Definition strip (s : string) : string :=
  string_of_list_ascii (rstrip_chars (lstrip_chars (list_ascii_of_string s))).

(** [s.replace('\n', ' ')] *)
Definition replace_newline (s : string) : string :=
  string_of_list_ascii
    (map (fun a => if Ascii.eqb a newline then space else a)
         (list_ascii_of_string s)).

(** ["\n".join(parts)] *)
Fixpoint join_nl (parts : list string) : string :=
  match parts with
  | [] => ""
  | [p] => p
  | p :: rest => p +:+ nl +:+ join_nl rest
  end.

Fixpoint is_prefix (p s : string) : bool :=
  match p, s with
  | EmptyString, _ => true
  | String a p', String b s' => Ascii.eqb a b && is_prefix p' s'
  | String _ _, EmptyString => false
  end.

(** [needle in haystack] *)
Fixpoint contains (needle haystack : string) : bool :=
  is_prefix needle haystack ||
  match haystack with
  | EmptyString => false
  | String _ rest => contains needle rest
  end.

End PyStr.

(** ** Tables and documents *)

Definition CellId := nat.

Record Table := mkTable {
  rows : nat;                          (* len(table.rows) *)
  columns : nat;                       (* len(table.columns) *)
  cell_at : nat -> nat -> CellId;      (* the cell at a grid coordinate *)
  cell_text : CellId -> string;        (* cell.text *)
  cell_width : CellId -> option Z      (* cell.width, None or a length in EMU *)
}.

Record Document := mkDocument {
  paragraphs : list string;            (* p.text for p in doc.paragraphs *)
  tables : list Table                  (* doc.tables *)
}.

(** The files on disk, by path. *)
Abbreviation FileSystem := (gmap string Document).

(** ** Blueprints *)

Record CellDef := mkCellDef {
  text : string;
  width : Z;
  start_row : nat;
  start_col : nat;
  end_row : nat;
  end_col : nat
}.

Record Blueprint := mkBlueprint {
  total_rows : nat;
  total_columns : nat;
  cells : list CellDef
}.

Record Context := mkContext {
  document_text : string;
  table_blueprint : Blueprint
}.

Record RoutineContext := mkRoutineContext {
  rc_context : Context;
  rc_table : Table;
  rc_path : string
}.

(** [range(a, b)] *)
Definition range (a b : nat) : list nat := seq a (b - a).

(** A [for k in ks: if same(k): end = k else: break] loop. *)
Fixpoint grow (same : nat -> bool) (ks : list nat) (e : nat) : nat :=
  match ks with
  | [] => e
  | k :: ks' => if same k then grow same ks' k else e
  end.

(** [cell.width.emu if cell.width else 0] *)
Definition width_emu (w : option Z) : Z :=
  match w with
  | Some e => if (e =? 0)%Z then 0%Z else e
  | None => 0%Z
  end.

(** [cell.text.replace('\n', ' ').strip()] *)
Definition normalize (s : string) : string :=
  PyStr.strip (PyStr.replace_newline s).

(** Number of cells the loop of [grow] compares before it stops. *)
Fixpoint grow_probes (same : nat -> bool) (ks : list nat) : nat :=
  match ks with
  | [] => 0
  | k :: ks' => if same k then S (grow_probes same ks') else 1
  end.

(** A cell proxy, the object that [row.cells] and [table.cell] hand out.
    Each time the cells of the table are asked for the library builds the
    whole list of proxies anew; in one such list the coordinates of a merged
    cell share a proxy.  Proxies define no equality of their own, so [==],
    [in] and hashing go by object identity: here the number of the access
    that built the proxy, with the cell that it stands for. *)
Record Proxy := mkProxy {
  built_at : nat;
  stands_for : CellId
}.

#[global] Instance Proxy_eq_dec : EqDecision Proxy.
Proof. solve_decision. Defined.

#[global] Instance Proxy_countable : Countable Proxy.
Proof.
  refine (inj_countable' (fun p => (built_at p, stands_for p))
                         (fun a => mkProxy a.1 a.2) _).
  intros []. reflexivity.
Defined.

(** The state of the scan: the number of accesses to the cells of the table
    made so far, [visited_cells] and [cell_definitions]. *)
Definition ScanState : Type := nat * gset Proxy * list CellDef.

(** [table.cell(r_idx, c) == cell] in the rightward loop that starts with
    the table's cells accessed [n] times: each pass asks for them anew. *)
Definition same_right (t : Table) (n r_idx c_idx : nat) (cell : Proxy)
    (c : nat) : bool :=
  bool_decide (mkProxy (n + (c - (c_idx + 1))) (cell_at t r_idx c) = cell).

(** [table.cell(r, c_idx) == cell] in the downward loop. *)
Definition same_down (t : Table) (n r_idx c_idx : nat) (cell : Proxy)
    (r : nat) : bool :=
  bool_decide (mkProxy (n + (r - (r_idx + 1))) (cell_at t r c_idx) = cell).

(** The accesses made by the rightward loop. *)
Definition probes_right (t : Table) (n r_idx c_idx : nat) (cell : Proxy)
  : nat :=
  grow_probes (same_right t n r_idx c_idx cell) (range (c_idx + 1) (columns t)).

(** The accesses made by the two loops. *)
Definition probes (t : Table) (n r_idx c_idx : nat) (cell : Proxy) : nat :=
  probes_right t n r_idx c_idx cell +
  grow_probes
    (same_down t (n + probes_right t n r_idx c_idx cell) r_idx c_idx cell)
    (range (r_idx + 1) (rows t)).

(** The dictionary appended for [cell], met at [(r_idx, c_idx)] when the
    cells of the table have been accessed [n] times. *)
Definition cell_definition (t : Table) (n r_idx c_idx : nat) (cell : Proxy)
  : CellDef :=
  let end_col :=
    grow (same_right t n r_idx c_idx cell)
         (range (c_idx + 1) (columns t)) c_idx in
  let end_row :=
    grow (same_down t (n + probes_right t n r_idx c_idx cell) r_idx c_idx cell)
         (range (r_idx + 1) (rows t)) r_idx in
  {| text := normalize (cell_text t (stands_for cell));
     width := width_emu (cell_width t (stands_for cell));
     start_row := r_idx; start_col := c_idx;
     end_row := end_row; end_col := end_col |}.

(** The body of the inner loop for [cell], found at [(r_idx, c_idx)]. *)
Definition visit (t : Table) (r_idx c_idx : nat) (cell : Proxy)
    (st : ScanState) : ScanState :=
  let '(n, visited_cells, cell_definitions) := st in
  if decide (cell ∈ visited_cells) then st
  else (n + probes t n r_idx c_idx cell,
        {[cell]} ∪ visited_cells,
        cell_definitions ++ [cell_definition t n r_idx c_idx cell]).

(** The inner loop over [enumerate(row.cells)]: the proxies of the row are
    built once, by the access that follows the [n] made so far. *)
Definition scan_row (t : Table) (st : ScanState) (r_idx : nat) : ScanState :=
  let '(n, visited_cells, cell_definitions) := st in
  fold_left
    (fun st c_idx => visit t r_idx c_idx (mkProxy n (cell_at t r_idx c_idx)) st)
    (range 0 (columns t))
    (S n, visited_cells, cell_definitions).

Definition scan_table (t : Table) : ScanState :=
  fold_left (scan_row t) (range 0 (rows t)) (0, ∅, []).

Definition blueprint_of (t : Table) : Blueprint :=
  {| total_rows := rows t;
     total_columns := columns t;
     cells := snd (scan_table t) |}.

(** ["\n".join([p.text for p in doc.paragraphs if p.text.strip()])] *)
Definition doc_text (doc : Document) : string :=
  PyStr.join_nl
    (List.filter (fun p => negb (String.eqb (PyStr.strip p) ""))
                 (paragraphs doc)).

(** routine.py.  A path that cannot be opened raises inside the [try] and
    the handler returns [None]. *)
Definition get_document_context (fs : FileSystem) (doc_path : string)
  : option Context :=
  match fs !! doc_path with
  | None => None
  | Some doc =>
      match tables doc with
      | [] => None
      | table :: _ =>
          Some {| document_text := doc_text doc;
                  table_blueprint := blueprint_of table |}
      end
  end.

(** coursefile.py: the same blueprint, returned with the table and path. *)
Definition routine_get_document_context (fs : FileSystem) (doc_path : string)
  : option RoutineContext :=
  match fs !! doc_path with
  | None => None
  | Some doc =>
      match tables doc with
      | [] => None
      | table :: _ =>
          Some {| rc_context :=
                    {| document_text := doc_text doc;
                       table_blueprint := blueprint_of table |};
                  rc_table := table;
                  rc_path := doc_path |}
      end
  end.

(** A table given by its rows of cell identities and a list of texts. *)
Definition table_of_grid (nr nc : nat) (g : list (list CellId))
    (txt : list string) : Table :=
  {| rows := nr; columns := nc;
     cell_at := fun r c => nth c (nth r g []) 0;
     cell_text := fun i => nth i txt "";
     cell_width := fun _ => None |}.

Definition scenario_separate : Table :=
  table_of_grid 2 3 [[0; 0; 1]; [2; 3; 3]] ["Math"; "Lit"; "Sci"; "Sci"].

Definition scenario_row_merged : Table :=
  table_of_grid 2 3 [[0; 0; 1]; [2; 2; 2]] ["Math"; "Lit"; "Sci"].

(** A merge that is not a rectangle: one cell object at (0,0), (0,1), (1,0). *)
Definition l_shaped : Table :=
  table_of_grid 2 2 [[0; 0]; [0; 1]] ["L"; "x"].

(** A single cell whose text has a leading blank and two paragraphs. *)
Definition padded : Table :=
  table_of_grid 1 1 [[0]] [" A" +:+ PyStr.nl +:+ "B"].

(** A document whose only table has three columns and no row. *)
Definition rowless_document : Document :=
  {| paragraphs := ["Routine"]; tables := [table_of_grid 0 3 [] []] |}.

(** Row-major coordinates of an [nr] by [nc] grid. *)
Definition coords (nr nc : nat) : list (nat * nat) :=
  flat_map (fun r => map (pair r) (range 0 nc)) (range 0 nr).

(** The coordinates of [l] whose cell was not met before, scanning left to
    right from the visited set [seen]. *)
Fixpoint firsts (t : Table) (seen : gset CellId) (l : list (nat * nat))
  : list (nat * nat) :=
  match l with
  | [] => []
  | rc :: l' =>
      if decide (cell_at t rc.1 rc.2 ∈ seen) then firsts t seen l'
      else rc :: firsts t ({[cell_at t rc.1 rc.2]} ∪ seen) l'
  end.

(** Row-major order on coordinates. *)
Definition lexlt (a b : nat * nat) : Prop :=
  a.1 < b.1 \/ (a.1 = b.1 /\ a.2 < b.2).

(** Every cell object occupies a solid axis-aligned rectangle of the grid. *)
Definition solid_rectangles (t : Table) : Prop :=
  forall r c, r < rows t -> c < columns t ->
    exists r0 r1 c0 c1,
      r1 < rows t /\ c1 < columns t /\
      forall r' c', r' < rows t -> c' < columns t ->
        (cell_at t r' c' = cell_at t r c <->
         (r0 <= r' <= r1 /\ c0 <= c' <= c1)).

(** No two coordinates of the grid share a cell object. *)
Definition no_merges (t : Table) : Prop :=
  forall r c r' c', r < rows t -> c < columns t ->
    r' < rows t -> c' < columns t ->
    cell_at t r c = cell_at t r' c' -> r = r' /\ c = c'.

(** [(r, c)] lies inside the region of [d]. *)
Definition covers (d : CellDef) (r c : nat) : bool :=
  ((start_row d <=? r) && (r <=? end_row d) &&
   (start_col d <=? c) && (c <=? end_col d))%nat.

(** The cell object a definition was made from. *)
Definition owner (t : Table) (d : CellDef) : CellId :=
  cell_at t (start_row d) (start_col d).

Definition no_newline (s : string) : Prop :=
  ~ In PyStr.newline (list_ascii_of_string s).

Definition no_outer_space (s : string) : Prop :=
  (forall a rest, list_ascii_of_string s = a :: rest ->
     PyStr.isspace a = false) /\
  (forall a front, list_ascii_of_string s = front ++ [a] ->
     PyStr.isspace a = false).

(** The definition of a cell that spans its own coordinate only. *)
Definition unit_cell (t : Table) (rc : nat * nat) : CellDef :=
  {| text := normalize (cell_text t (cell_at t rc.1 rc.2));
     width := width_emu (cell_width t (cell_at t rc.1 rc.2));
     start_row := rc.1; start_col := rc.2;
     end_row := rc.1; end_col := rc.2 |}.

(** The coordinates of a row, from left to right. *)
Definition row_coords (t : Table) (r : nat) : list (nat * nat) :=
  map (pair r) (range 0 (columns t)).

(** The coordinates at which a row meets a cell for the first time, row by
    row. *)
Definition row_firsts (t : Table) : list (nat * nat) :=
  flat_map (fun r => firsts t ∅ (row_coords t r)) (range 0 (rows t)).

(** ** Executing fill instructions *)

Inductive PyExc := JSONDecodeError | KeyError | IndexError | OpenError.

Inductive Outcome (A : Type) :=
| Returned (a : A)
| Raised (e : PyExc).
Arguments Returned {A} a.
Arguments Raised {A} e.

(** One object of the decoded instruction array, as the prompt asks for it:
    [row] and [column] are integers and [text_to_fill] is a string; a key
    that is absent is [None].  A value of another JSON type under one of the
    keys (a float, a string or null as a coordinate, a number as the text)
    is outside this model. *)
Record Instruction := mkInstruction {
  row : option Z;
  column : option Z;
  text_to_fill : option string
}.

Definition instr (r c : Z) (txt : string) : Instruction :=
  {| row := Some r; column := Some c; text_to_fill := Some txt |}.

(** [l[i]] on a Python list: a negative index counts from the end, an index
    out of range raises [IndexError] (here [None]). *)
Definition py_getitem {A : Type} (l : list A) (i : Z) : option A :=
  let n := Z.of_nat (length l) in
  if (0 <=? i)%Z then nth_error l (Z.to_nat i)
  else if (- n <=? i)%Z then nth_error l (Z.to_nat (n + i))
  else None.

(** The table's flat, row-major list of cell objects. *)
Definition flat_cells (t : Table) : list CellId :=
  map (fun rc => cell_at t rc.1 rc.2) (coords (rows t) (columns t)).

(** [table.cell(row_idx, col_idx)]: the document library indexes the flat
    list at [col_idx + row_idx * column_count]. *)
Definition table_cell (t : Table) (row_idx col_idx : Z) : option CellId :=
  py_getitem (flat_cells t) (col_idx + row_idx * Z.of_nat (columns t)).

(** [cell.text = txt] *)
Definition set_text (t : Table) (cell : CellId) (txt : string) : Table :=
  {| rows := rows t; columns := columns t; cell_at := cell_at t;
     cell_text := fun i => if decide (i = cell) then txt else cell_text t i;
     cell_width := cell_width t |}.

(** The texts of the grid, row by row. *)
Definition cell_texts (t : Table) : list string :=
  map (cell_text t) (flat_cells t).

Definition texts_after (o : Outcome Table) : Outcome (list string) :=
  match o with
  | Returned t => Returned (cell_texts t)
  | Raised e => Raised e
  end.

(** The guard of both writers. *)
Definition in_bounds (t : Table) (r c : Z) : bool :=
  (r <? Z.of_nat (rows t))%Z && (c <? Z.of_nat (columns t))%Z.

(** The loop of [fill_and_save_routine] (routine.py). *)
Fixpoint execute_instructions (table : Table) (instructions : list Instruction)
  : Outcome Table :=
  match instructions with
  | [] => Returned table
  | instruction :: rest =>
      match row instruction, column instruction, text_to_fill instruction with
      | Some r, Some c, Some txt =>
          if in_bounds table r c then
            match table_cell table r c with
            | Some cell => execute_instructions (set_text table cell txt) rest
            | None => Raised IndexError
            end
          else execute_instructions table rest
      | _, _, _ => Raised KeyError
      end
  end.

(** The loop of [routine_fill_and_save_routine] (coursefile.py): an object
    that lacks a key is passed over. *)
Fixpoint routine_execute_instructions (table : Table)
    (instructions : list Instruction) : Outcome Table :=
  match instructions with
  | [] => Returned table
  | inst :: rest =>
      match row inst, column inst, text_to_fill inst with
      | Some r, Some c, Some txt =>
          if in_bounds table r c then
            match table_cell table r c with
            | Some cell =>
                routine_execute_instructions (set_text table cell txt) rest
            | None => Raised IndexError
            end
          else routine_execute_instructions table rest
      | _, _, _ => routine_execute_instructions table rest
      end
  end.

Section Writers.

(** [json.loads], restricted to what the writers use: [None] when the
    string is not valid JSON, otherwise the decoded instruction array. *)
Variable json_loads : string -> option (list Instruction).

(** routine.py: every exception is caught and turned into [False].  The
    model has [doc.save] write the file; a save that the file system
    refuses is not modelled. *)
Definition fill_and_save_routine (fs : FileSystem)
    (clean_routine_path fill_instructions_json_str save_path : string)
  : bool * FileSystem :=
  match json_loads fill_instructions_json_str with
  | None => (false, fs)
  | Some instructions =>
      match fs !! clean_routine_path with
      | None => (false, fs)
      | Some doc =>
          match tables doc with
          | [] => (false, fs)
          | table :: others =>
              match execute_instructions table instructions with
              | Raised _ => (false, fs)
              | Returned table' =>
                  (true,
                   <[save_path := {| paragraphs := paragraphs doc;
                                     tables := table' :: others |}]> fs)
              end
          end
      end
  end.

(** coursefile.py: only [JSONDecodeError] and [KeyError] are caught.  As
    above, [doc.save] writes the file. *)
Definition routine_fill_and_save_routine (fs : FileSystem)
    (clean_path instructions_json save_path : string)
  : Outcome bool * FileSystem :=
  match json_loads instructions_json with
  | None => (Returned false, fs)
  | Some instructions =>
      match fs !! clean_path with
      | None => (Raised OpenError, fs)
      | Some doc =>
          match tables doc with
          | [] => (Returned false, fs)
          | table :: others =>
              match routine_execute_instructions table instructions with
              | Raised KeyError => (Returned false, fs)
              | Raised JSONDecodeError => (Returned false, fs)
              | Raised e => (Raised e, fs)
              | Returned table' =>
                  (Returned true,
                   <[save_path := {| paragraphs := paragraphs doc;
                                     tables := table' :: others |}]> fs)
              end
          end
      end
  end.

End Writers.

(** A decoder defined far enough to run the writers on a rejected input: it
    accepts the empty array and nothing else. *)
Definition loads_empty_array (s : string) : option (list Instruction) :=
  if String.eqb s "[]" then Some [] else None.

(** A two by two destination without merges, all cells empty. *)
Definition clean_2x2 : Table :=
  table_of_grid 2 2 [[0; 1]; [2; 3]] [""; ""; ""; ""].

(** A file system holding that template only. *)
Definition template_only : FileSystem :=
  {["clean.docx" := {| paragraphs := []; tables := [clean_2x2] |}]}.

(** ** More Python string operations *)

(** The functions of this module work on the characters of a string, a list
    of code points below 256. *)
Module PyChars.

Definition chars (s : string) : list ascii := list_ascii_of_string s.
Definition str (l : list ascii) : string := string_of_list_ascii l.

(** [l.strip()] *)
Definition strip (l : list ascii) : list ascii :=
  PyStr.rstrip_chars (PyStr.lstrip_chars l).

(** The characters at which [str.splitlines] breaks a line. *)
Definition is_linebreak (a : ascii) : bool :=
  let n := nat_of_ascii a in
  ((10 <=? n)%nat && (n <=? 13)%nat) || ((28 <=? n)%nat && (n <=? 30)%nat)
  || (n =? 133)%nat.

Definition CR : ascii := ascii_of_nat 13.
Definition LF : ascii := ascii_of_nat 10.

(** [l.splitlines()]: a line feed right after a carriage return belongs to
    the same break ([after_cr]); no empty last line is produced. *)
Fixpoint splitlines_go (after_cr : bool) (cur l : list ascii)
  : list (list ascii) :=
  match l with
  | [] => match cur with [] => [] | _ => [rev cur] end
  | a :: l' =>
      if after_cr && Ascii.eqb a LF then splitlines_go false cur l'
      else if is_linebreak a then
        rev cur :: splitlines_go (Ascii.eqb a CR) [] l'
      else splitlines_go false (a :: cur) l'
  end.

Definition splitlines (l : list ascii) : list (list ascii) :=
  splitlines_go false [] l.

(** [l.split(sep)] for a separator of one character. *)
Fixpoint split_go (sep : ascii) (cur l : list ascii) : list (list ascii) :=
  match l with
  | [] => [rev cur]
  | a :: l' =>
      if Ascii.eqb a sep then rev cur :: split_go sep [] l'
      else split_go sep (a :: cur) l'
  end.

Definition split (sep : ascii) (l : list ascii) : list (list ascii) :=
  split_go sep [] l.

(** [sep.join(parts)] *)
Fixpoint join (sep : list ascii) (parts : list (list ascii)) : list ascii :=
  match parts with
  | [] => []
  | [p] => p
  | p :: rest => p ++ sep ++ join sep rest
  end.

(** [list(dict.fromkeys(l))]: the keys in the order of their first
    insertion. *)
Fixpoint fromkeys_go (seen l : list (list ascii)) : list (list ascii) :=
  match l with
  | [] => []
  | x :: l' =>
      if in_dec (List.list_eq_dec Ascii.ascii_dec) x seen then fromkeys_go seen l'
      else x :: fromkeys_go (x :: seen) l'
  end.

Definition fromkeys (l : list (list ascii)) : list (list ascii) :=
  fromkeys_go [] l.

(** [a.lower()] *)
Definition lower_char (a : ascii) : ascii :=
  let n := nat_of_ascii a in
  if ((65 <=? n)%nat && (n <=? 90)%nat) || ((192 <=? n)%nat && (n <=? 214)%nat)
     || ((216 <=? n)%nat && (n <=? 222)%nat)
  then ascii_of_nat (n + 32) else a.

Definition lower (l : list ascii) : list ascii := map lower_char l.

Fixpoint startswith (l p : list ascii) {struct p} : bool :=
  match p, l with
  | [], _ => true
  | a :: p', b :: l' => Ascii.eqb a b && startswith l' p'
  | _ :: _, [] => false
  end.

Definition endswith (l p : list ascii) : bool :=
  startswith (rev l) (rev p).

(** [needle in l] *)
Fixpoint contains (needle l : list ascii) : bool :=
  startswith l needle ||
  match l with
  | [] => false
  | _ :: l' => contains needle l'
  end.

(** [l[start:-back]] for [back > 0]. *)
Definition slice_to_back (l : list ascii) (start back : nat) : list ascii :=
  skipn start (firstn (length l - back) l).

(** [l.replace(old, "")] for a non-empty [old]; [skip] counts the characters
    of a match still to be passed over. *)
Fixpoint remove_go (old : list ascii) (skip : nat) (l : list ascii)
  : list ascii :=
  match l with
  | [] => []
  | a :: l' =>
      match skip with
      | S k => remove_go old k l'
      | 0 =>
          if startswith l old then remove_go old (length old - 1) l'
          else a :: remove_go old 0 l'
      end
  end.

Definition remove (old l : list ascii) : list ascii := remove_go old 0 l.

Definition is_digit (a : ascii) : bool :=
  let n := nat_of_ascii a in (48 <=? n)%nat && (n <=? 57)%nat.

End PyChars.

(** Neither the first nor the last character is whitespace. *)
Definition trimmed (l : list ascii) : Prop :=
  (forall a rest, l = a :: rest -> PyStr.isspace a = false) /\
  (forall a front, l = front ++ [a] -> PyStr.isspace a = false).

(** No character of [l] breaks a line. *)
Definition unbroken (l : list ascii) : Prop :=
  Forall (fun a => PyChars.is_linebreak a = false) l.

(** [read_docx_content] (bloom.py): the non-blank paragraphs joined by line
    feeds, [None] when the file cannot be read. *)
Definition read_docx_content (fs : FileSystem) (file_path : string)
  : option string :=
  option_map doc_text (fs !! file_path).

(** The region and width of a cell definition, without its text. *)
Definition region_of (d : CellDef) : nat * nat * nat * nat * Z :=
  (start_row d, start_col d, end_row d, end_col d, width d).

(** ** Question papers (bloom.py) *)

(** [line.strip()] is not empty. *)
Definition nonblank (line : list ascii) : bool :=
  match PyChars.strip line with [] => false | _ :: _ => true end.

(** [list(dict.fromkeys(line.strip() for line in content.splitlines()
    if line.strip()))] *)
Definition unique_lines (content : list ascii) : list (list ascii) :=
  PyChars.fromkeys
    (map PyChars.strip (List.filter nonblank (PyChars.splitlines content))).

Definition deduplicate_content (content : string) : string :=
  PyChars.str (PyChars.join [PyChars.LF] (unique_lines (PyChars.chars content))).

(** [[part.strip() for part in line.split('|')]] *)
Definition parts_of (line : list ascii) : list (list ascii) :=
  map PyChars.strip (PyChars.split "|" line).

Definition parse_api_response (result_text : string) : list (list string) :=
  if String.eqb result_text "" then []
  else
    map (map PyChars.str)
      (List.filter (fun parts => (length parts =? 3)%nat)
         (map parts_of
            (PyChars.split PyChars.LF
               (PyChars.strip (PyChars.chars result_text))))).

(** A reply in the format the prompt asks for: one row per line, the fields
    of a row separated by bars. *)
Definition reply_of (data : list (list string)) : string :=
  PyChars.str
    (PyChars.join [PyChars.LF]
       (map (fun row => PyChars.join ["|"%char] (map PyChars.chars row)) data)).

(** A field that survives parsing unchanged: stripped, without a bar and
    without a line feed. *)
Definition plain_field (f : list ascii) : Prop :=
  trimmed f /\ ~ In "|"%char f /\ ~ In PyChars.LF f.

(** ** Course tables (coursetable.py, coursefile.py) *)

(** [re.sub(r'\s+', ' ', text)]; [in_run] tells that the run of whitespace
    being read has been replaced already. *)
Fixpoint collapse_whitespace (in_run : bool) (l : list ascii) : list ascii :=
  match l with
  | [] => []
  | a :: l' =>
      if PyStr.isspace a then
        if in_run then collapse_whitespace true l'
        else PyStr.space :: collapse_whitespace true l'
      else a :: collapse_whitespace false l'
  end.

(** [clean_text]; [None] stands for a value that is not a string. *)
Definition clean_text (text : option string) : string :=
  match text with
  | None => ""
  | Some s =>
      PyChars.str
        (PyChars.strip (collapse_whitespace false (PyChars.chars s)))
  end.

(** Every whitespace character is a single space between two other
    characters or at an end. *)
Fixpoint single_spaced (l : list ascii) : Prop :=
  match l with
  | [] => True
  | a :: l' =>
      (PyStr.isspace a = true ->
       a = PyStr.space /\
       match l' with b :: _ => PyStr.isspace b = false | [] => True end) /\
      single_spaced l'
  end.

(** The characters that the substitution on a subject name removes:
    backslash, slash, star, question mark, colon, double quote, the angle
    brackets and the bar. *)
Definition unsafe_in_name (a : ascii) : bool :=
  existsb (Nat.eqb (nat_of_ascii a)) [92; 47; 42; 63; 58; 34; 60; 62; 124].

Definition safe_name (subject : string) : string :=
  PyChars.str
    (List.filter (fun a => negb (unsafe_in_name a)) (PyChars.chars subject)).

Definition is_lower_alnum (a : ascii) : bool :=
  let n := nat_of_ascii a in
  ((97 <=? n)%nat && (n <=? 122)%nat) || ((48 <=? n)%nat && (n <=? 57)%nat).

(** [re.sub(r'[^a-z0-9]', '', str(s).lower())] *)
Definition normalize_string (s : string) : string :=
  PyChars.str
    (List.filter is_lower_alnum (PyChars.lower (PyChars.chars s))).

(** [f"CourseFile_{safe_subject}.docx"], the name [generate_course_files]
    saves a subject under. *)
Definition course_file_name (subject : string) : string :=
  "CourseFile_" +:+ safe_name subject +:+ ".docx".

(** The test of the search loop of [run_course_table_process]. *)
Definition names_course (normalized_course_name filename : string) : bool :=
  PyChars.startswith (PyChars.lower (PyChars.chars filename))
                     (PyChars.chars "coursefile_") &&
  PyChars.endswith (PyChars.lower (PyChars.chars filename))
                   (PyChars.chars ".docx") &&
  String.eqb
    (normalize_string
       (PyChars.str (PyChars.slice_to_back (PyChars.chars filename) 11 5)))
    normalized_course_name.

(** The search loop: the first file of the directory listing that passes the
    test. *)
Definition find_course_file (listing : list string) (course_name : string)
  : option string :=
  List.find (names_course (normalize_string course_name)) listing.

(** ** Replies of the model (routine.py, coursefile.py) *)

Definition backtick : ascii := ascii_of_nat 96.
Definition fence : list ascii := [backtick; backtick; backtick].

(** [response.text.strip().replace('```json', '').replace('```', '').strip()],
    the reply as it is handed on to the writer. *)
Definition cleaned_response (text : string) : string :=
  PyChars.str
    (PyChars.strip
       (PyChars.remove fence
          (PyChars.remove (fence ++ PyChars.chars "json")
             (PyChars.strip (PyChars.chars text))))).

(** ** Sorting topics (coursetable.py) *)

(** The longest run of decimal digits at the start of [l], and the rest. *)
Fixpoint span_digits (l : list ascii) : list ascii * list ascii :=
  match l with
  | [] => ([], [])
  | a :: l' =>
      if PyChars.is_digit a then
        let (ds, rest) := span_digits l' in (a :: ds, rest)
      else ([], l)
  end.

(** [int(ds)] for a run of decimal digits. *)
Definition int_of_digits (ds : list ascii) : N :=
  fold_left (fun n d => (10 * n + N.of_nat (nat_of_ascii d - 48))%N) ds 0%N.

(** The tuples returned by [get_sort_key]: [(0, major, minor)] and
    [(1, topic_string)]. *)
Inductive SortKey :=
| Numbered (major minor : N)
| Unnumbered (topic_string : list ascii).

(** [get_sort_key]: the key is numbered when the topic starts with digits, a
    dot and digits. *)
Definition get_sort_key (topic_string : string) : SortKey :=
  let (major, rest) := span_digits (PyChars.chars topic_string) in
  match major, rest with
  | _ :: _, dot :: rest' =>
      if Ascii.eqb dot "."%char then
        match span_digits rest' with
        | ((_ :: _) as minor, _) =>
            Numbered (int_of_digits major) (int_of_digits minor)
        | ([], _) => Unnumbered (PyChars.chars topic_string)
        end
      else Unnumbered (PyChars.chars topic_string)
  | _, _ => Unnumbered (PyChars.chars topic_string)
  end.

(** [s < s'] on strings: by code points, a proper prefix first. *)
Fixpoint chars_lt (s s' : list ascii) : bool :=
  match s, s' with
  | _, [] => false
  | [], _ :: _ => true
  | a :: t, b :: t' =>
      (nat_of_ascii a <? nat_of_ascii b)%nat ||
      ((nat_of_ascii a =? nat_of_ascii b)%nat && chars_lt t t')
  end.

(** [k < k'] on the tuples. *)
Definition key_lt (k k' : SortKey) : bool :=
  match k, k' with
  | Numbered m n, Numbered m' n' => (m <? m')%N || ((m =? m')%N && (n <? n')%N)
  | Numbered _ _, Unnumbered _ => true
  | Unnumbered _, Numbered _ _ => false
  | Unnumbered s, Unnumbered s' => chars_lt s s'
  end.

(** [sorted(topics, key=get_sort_key)], a stable sort: a topic is put before
    the first topic after it whose key is not smaller. *)
Fixpoint insert_topic (x : string) (sorted : list string) : list string :=
  match sorted with
  | [] => [x]
  | y :: rest =>
      if key_lt (get_sort_key y) (get_sort_key x) then y :: insert_topic x rest
      else x :: y :: rest
  end.

Definition sorted_topics (topics : list string) : list string :=
  fold_right insert_topic [] topics.

(** [k <= k'] on the tuples. *)
Definition key_le (k k' : SortKey) : Prop := key_lt k' k = false.

(** ** Course details (coursefile.py) *)

(** The characters of [l] before its first line feed: what a dot followed
    by a star matches. *)
Fixpoint until_newline (l : list ascii) : list ascii :=
  match l with
  | [] => []
  | a :: l' => if Ascii.eqb a PyChars.LF then [] else a :: until_newline l'
  end.

(** Group 1 of the first match of the course pattern (the label Course
    and a colon, any whitespace, then the group), ignoring case: the text
    after the label, past any whitespace, up to the end of the line. *)
Fixpoint course_group (l : list ascii) : option (list ascii) :=
  match l with
  | [] => None
  | _ :: l' =>
      if PyChars.startswith (PyChars.lower l) (PyChars.chars "course:")
      then Some (until_newline (PyStr.lstrip_chars (skipn 7 l)))
      else course_group l'
  end.

(** [para.text.split(":")[-1].strip()] *)
Definition after_last_colon (l : list ascii) : list ascii :=
  PyChars.strip (List.last (PyChars.split ":" l) []).

(** A value that is neither [None] nor the empty string. *)
Definition truthy (o : option (list ascii)) : bool :=
  match o with
  | Some (_ :: _) => true
  | _ => false
  end.

(** The loop over the paragraphs, from the values found so far. *)
Fixpoint scan_paragraphs (course_name semester : option (list ascii))
    (paras : list string) : option (list ascii) * option (list ascii) :=
  match paras with
  | [] => (course_name, semester)
  | para :: rest =>
      let course_name :=
        match course_name with
        | None => option_map PyChars.strip (course_group (PyChars.chars para))
        | Some _ => course_name
        end in
      let semester :=
        match semester with
        | None =>
            if PyChars.contains (PyChars.chars "Semester:") (PyChars.chars para)
            then Some (after_last_colon (PyChars.chars para))
            else None
        | Some _ => semester
        end in
      if truthy course_name && truthy semester then (course_name, semester)
      else scan_paragraphs course_name semester rest
  end.

(** [extract_course_details]; the pair [(None, None)] is [None]. *)
Definition extract_course_details (fs : FileSystem) (course_file_path : string)
  : option (string * string) :=
  match fs !! course_file_path with
  | None => None
  | Some doc =>
      let (course_name, semester) :=
        scan_paragraphs None None (paragraphs doc) in
      if truthy course_name && truthy semester then
        match course_name, semester with
        | Some c, Some s => Some (PyChars.str c, PyChars.str s)
        | _, _ => None
        end
      else None
  end.

(** A course file whose first course line is empty. *)
Definition course_file_with_empty_label : FileSystem :=
  {["course.docx" :=
      {| paragraphs := ["Course:"; "Semester: 5th"; "Course: Signals"];
         tables := [] |}]}.

(** A course file with both details. *)
Definition course_file_sample : FileSystem :=
  {["course.docx" :=
      {| paragraphs := ["COURSE:  Signals and Systems "; "Semester: 5th"];
         tables := [] |}]}.

(** [True] when the text starts, ignoring case, with one of the ordinal
    endings st, nd, rd, th. *)
Definition ordinal_ending (l : list ascii) : bool :=
  existsb (fun e => PyChars.startswith (PyChars.lower l) (PyChars.chars e))
          ["st"; "nd"; "rd"; "th"].

(** A match of [(\d+)(?:st|nd|rd|th)?\s+semester], ignoring case, that
    starts at the first character of [l]: its group 1. *)
Definition semester_at (l : list ascii) : option (list ascii) :=
  let (digits, rest) := span_digits l in
  match digits with
  | [] => None
  | _ :: _ =>
      let rest := if ordinal_ending rest then skipn 2 rest else rest in
      match rest with
      | a :: _ =>
          if PyStr.isspace a &&
             PyChars.startswith (PyChars.lower (PyStr.lstrip_chars rest))
                                (PyChars.chars "semester")
          then Some digits else None
      | [] => None
      end
  end.

Fixpoint semester_search (l : list ascii) : option (list ascii) :=
  match l with
  | [] => None
  | _ :: l' =>
      match semester_at l with
      | Some digits => Some digits
      | None => semester_search l'
      end
  end.

(** [extract_semester_from_text] *)
Definition extract_semester_from_text (text : string) : option string :=
  option_map PyChars.str (semester_search (PyChars.chars text)).

(** ** Instruction lists *)

(** An instruction object that holds all three keys. *)
Definition complete (i : Instruction) : bool :=
  match row i, column i, text_to_fill i with
  | Some _, Some _, Some _ => true
  | _, _, _ => false
  end.


(** All keys present and the guard of the writers fails. *)
Definition past_end (t : Table) (i : Instruction) : bool :=
  match row i, column i, text_to_fill i with
  | Some r, Some c, Some _ => negb (in_bounds t r c)
  | _, _, _ => false
  end.

(** The cell object whose text an instruction sets, when it sets one. *)
Definition target (t : Table) (i : Instruction) : option CellId :=
  match row i, column i, text_to_fill i with
  | Some r, Some c, Some _ => if in_bounds t r c then table_cell t r c else None
  | _, _, _ => None
  end.

(** A decoder defined on one input only. *)
Definition loads_one (input : string) (decoded : list Instruction)
  : string -> option (list Instruction) :=
  fun s => if String.eqb s input then Some decoded else None.

(** ** Reconciliation *)

(** Modelled from the spec: an ExpandedFill of section 3.  The sources have
    no such record; the fill list is produced by the generative model. *)
Record ExpandedFill := mkFill {
  sourceIndex : nat;
  fill_row : Z;
  fill_column : Z;
  fill_text : string
}.

(** Modelled from the spec: one step of the fold of section 4.4 (the
    ReconciliationEngine).  The sources contain no reconciliation code:
    [generate_fill_instructions] asks the generative model to combine
    colliding texts.  The first fill of a coordinate initialises its entry; a
    later one is appended after one newline unless its text already occurs in
    the accumulated value. *)
Definition reconcile_step (m : gmap (Z * Z) string) (f : ExpandedFill)
  : gmap (Z * Z) string :=
  match m !! (fill_row f, fill_column f) with
  | None => <[(fill_row f, fill_column f) := fill_text f]> m
  | Some acc =>
      if PyStr.contains (fill_text f) acc then m
      else <[(fill_row f, fill_column f) := acc +:+ PyStr.nl +:+ fill_text f]> m
  end.

(** Modelled from the spec: [reconcile] of section 4.4, a left fold of the
    expanded fills; the destination dimensions take no part (coordinates are
    not bounds-checked here). *)
Definition reconcile (expandedFills : list ExpandedFill)
    (destinationTotalRows destinationTotalColumns : nat)
  : gmap (Z * Z) string :=
  fold_left reconcile_step expandedFills ∅.

(** * Properties *)

(** ** Loops over ranges *)

Lemma range_0_S (n : nat) : range 0 (S n) = range 0 n ++ [n].
Proof.
  unfold range. rewrite !Nat.sub_0_r. rewrite seq_S. reflexivity.
Qed.

Lemma fold_left_flat_map {A B S : Type} (f : S -> B -> S) (g : A -> list B)
    (l : list A) (s : S) :
  fold_left f (flat_map g l) s = fold_left (fun s a => fold_left f (g a) s) l s.
Proof.
  revert s. induction l as [|a l IH]; intros s; simpl; [reflexivity|].
  rewrite fold_left_app. apply IH.
Qed.

Lemma fold_left_pointwise {A S : Type} (f g : S -> A -> S) (l : list A) (s : S) :
  (forall s a, f s a = g s a) -> fold_left f l s = fold_left g l s.
Proof.
  intros H. revert s. induction l as [|a l IH]; intros s; simpl;
    [reflexivity|]. rewrite H. apply IH.
Qed.

Lemma fold_left_map {A B S : Type} (f : S -> B -> S) (g : A -> B)
    (l : list A) (s : S) :
  fold_left f (map g l) s = fold_left (fun s a => f s (g a)) l s.
Proof.
  revert s. induction l as [|a l IH]; intros s; simpl; [reflexivity|apply IH].
Qed.

Lemma In_coords (nr nc r c : nat) :
  In (r, c) (coords nr nc) <-> r < nr /\ c < nc.
Proof.
  unfold coords, range. rewrite in_flat_map. split.
  - intros [r' [Hr Hc]]. apply in_map_iff in Hc as [c' [E Hc]].
    inversion E; subst. apply in_seq in Hr, Hc. lia.
  - intros [Hr Hc]. exists r. split; [apply in_seq; lia|].
    apply in_map_iff. exists c. split; [reflexivity|apply in_seq; lia].
Qed.

Lemma coords_S (nr nc : nat) :
  coords (S nr) nc = coords nr nc ++ map (pair nr) (range 0 nc).
Proof.
  unfold coords. rewrite range_0_S, flat_map_app. simpl.
  rewrite app_nil_r. reflexivity.
Qed.

Lemma lexlt_irrefl (a : nat * nat) : ~ lexlt a a.
Proof. unfold lexlt. lia. Qed.

Lemma lexlt_asym (a b : nat * nat) : lexlt a b -> ~ lexlt b a.
Proof. unfold lexlt. lia. Qed.

Lemma row_sorted (r a n : nat) :
  StronglySorted lexlt (map (pair r) (seq a n)).
Proof.
  revert a. induction n as [|n IH]; intros a; simpl; constructor.
  - apply IH.
  - apply List.Forall_forall. intros [r' c'] Hin.
    apply in_map_iff in Hin as [c'' [E Hin]]. inversion E; subst.
    apply in_seq in Hin. unfold lexlt; simpl. lia.
Qed.

Lemma sorted_app {A : Type} (R : A -> A -> Prop) (l1 l2 : list A) :
  StronglySorted R l1 -> StronglySorted R l2 ->
  (forall x y, In x l1 -> In y l2 -> R x y) ->
  StronglySorted R (l1 ++ l2).
Proof.
  intros H1 H2 H. induction H1 as [|x l1 Hs IH Hf]; simpl; [assumption|].
  constructor.
  - apply IH. intros a b Ha Hb. apply H; [right; assumption|assumption].
  - apply List.Forall_app. split; [assumption|].
    apply List.Forall_forall. intros y Hy. apply H; [left; reflexivity|assumption].
Qed.

Lemma coords_sorted (nr nc : nat) : StronglySorted lexlt (coords nr nc).
Proof.
  induction nr as [|nr IH]; [constructor|].
  rewrite coords_S. apply sorted_app; [assumption|apply row_sorted|].
  intros [r c] [r' c'] Hx Hy. apply In_coords in Hx.
  apply in_map_iff in Hy as [c'' [E _]]. inversion E; subst.
  unfold lexlt; simpl. lia.
Qed.

Lemma sorted_before (l1 l2 : list (nat * nat)) (x y : nat * nat) :
  StronglySorted lexlt (l1 ++ x :: l2) ->
  In y (l1 ++ x :: l2) -> lexlt y x -> In y l1.
Proof.
  intros Hs Hin Hlt. apply in_app_or in Hin as [H|[H|H]]; [assumption| |].
  - subst. exfalso. exact (lexlt_irrefl _ Hlt).
  - exfalso. induction l1 as [|z l1 IH]; simpl in Hs.
    + apply StronglySorted_inv in Hs as [_ Hf].
      rewrite List.Forall_forall in Hf. apply (lexlt_asym _ _ Hlt). apply Hf, H.
    + apply StronglySorted_inv in Hs as [Hs _]. apply IH, Hs.
Qed.

Lemma coords_NoDup (nr nc : nat) : List.NoDup (coords nr nc).
Proof.
  assert (G : forall l, StronglySorted lexlt l -> List.NoDup l).
  { intros l Hs. induction Hs as [|x l Hs IH Hf]; constructor; [|assumption].
    intros Hin. rewrite List.Forall_forall in Hf.
    exact (lexlt_irrefl _ (Hf _ Hin)). }
  apply G, coords_sorted.
Qed.

Lemma length_coords (nr nc : nat) : length (coords nr nc) = nr * nc.
Proof.
  induction nr as [|nr IH]; [reflexivity|].
  rewrite coords_S, length_app, length_map, IH. unfold range.
  rewrite length_seq. lia.
Qed.

(** ** First occurrences *)

Lemma firsts_In (t : Table) (l : list (nat * nat)) (seen : gset CellId)
    (rc : nat * nat) :
  In rc (firsts t seen l) -> In rc l /\ cell_at t rc.1 rc.2 ∉ seen.
Proof.
  revert seen. induction l as [|x l IH]; intros seen; simpl; [tauto|].
  destruct (decide (cell_at t x.1 x.2 ∈ seen)) as [Hin|Hnin].
  - intros H. apply IH in H as [H1 H2]. auto.
  - intros [H|H].
    + subst. auto.
    + apply IH in H as [H1 H2]. split; [auto|].
      intros Hs. apply H2, elem_of_union. right. exact Hs.
Qed.

Lemma firsts_split (t : Table) (l : list (nat * nat)) (seen : gset CellId)
    (rc : nat * nat) :
  In rc (firsts t seen l) ->
  exists l1 l2, l = l1 ++ rc :: l2 /\
    forall y, In y l1 -> cell_at t y.1 y.2 <> cell_at t rc.1 rc.2.
Proof.
  revert seen. induction l as [|x l IH]; intros seen; simpl; [tauto|].
  destruct (decide (cell_at t x.1 x.2 ∈ seen)) as [Hin|Hnin].
  - intros H. pose proof (firsts_In _ _ _ _ H) as [_ Hrc].
    apply IH in H as (l1 & l2 & -> & Hl1).
    exists (x :: l1), l2. split; [reflexivity|].
    intros y [<-|Hy]; [|auto]. intros E. rewrite E in Hin. contradiction.
  - intros [<-|H].
    + exists [], l. split; [reflexivity|]. intros y [].
    + pose proof (firsts_In _ _ _ _ H) as [_ Hrc].
      apply IH in H as (l1 & l2 & -> & Hl1).
      exists (x :: l1), l2. split; [reflexivity|].
      intros y [<-|Hy]; [|auto]. intros E. set_solver.
Qed.

Lemma firsts_NoDup (t : Table) (l : list (nat * nat)) (seen : gset CellId) :
  List.NoDup (map (fun rc => cell_at t rc.1 rc.2) (firsts t seen l)).
Proof.
  revert seen. induction l as [|x l IH]; intros seen; simpl; [constructor|].
  destruct (decide (cell_at t x.1 x.2 ∈ seen)) as [Hin|Hnin]; [apply IH|].
  simpl. constructor; [|apply IH].
  intros H. apply in_map_iff in H as (y & E & Hy).
  apply firsts_In in Hy as [_ Hy]. set_solver.
Qed.

Lemma firsts_complete (t : Table) (l : list (nat * nat)) (seen : gset CellId)
    (x : nat * nat) :
  In x l -> cell_at t x.1 x.2 ∉ seen ->
  exists y, In y (firsts t seen l) /\ cell_at t y.1 y.2 = cell_at t x.1 x.2.
Proof.
  revert seen. induction l as [|z l IH]; intros seen; simpl; [tauto|].
  intros Hx Hseen.
  destruct (decide (cell_at t z.1 z.2 ∈ seen)) as [Hin|Hnin].
  - destruct Hx as [<-|Hx]; [contradiction|]. apply IH; assumption.
  - destruct (decide (cell_at t z.1 z.2 = cell_at t x.1 x.2)) as [E|NE].
    + exists z. split; [left; reflexivity|assumption].
    + destruct Hx as [<-|Hx]; [congruence|].
      destruct (IH ({[cell_at t z.1 z.2]} ∪ seen) Hx) as (y & Hy & Ey).
      * intros Hs. apply elem_of_union in Hs as [Hs|Hs]; [|contradiction].
        apply elem_of_singleton in Hs. congruence.
      * exists y. split; [right; assumption|assumption].
Qed.

Lemma firsts_all (t : Table) (l : list (nat * nat)) (seen : gset CellId) :
  List.NoDup (map (fun rc => cell_at t rc.1 rc.2) l) ->
  (forall x, In x l -> cell_at t x.1 x.2 ∉ seen) ->
  firsts t seen l = l.
Proof.
  revert seen. induction l as [|z l IH]; intros seen Hnd Hseen; simpl;
    [reflexivity|].
  inversion Hnd as [|? ? Hz Hnd']; subst.
  destruct (decide (cell_at t z.1 z.2 ∈ seen)) as [Hin|Hnin].
  - exfalso. apply (Hseen z); [left; reflexivity|assumption].
  - f_equal. apply IH; [assumption|].
    intros x Hx Hin. apply elem_of_union in Hin as [Hin|Hin].
    + apply elem_of_singleton in Hin. apply Hz. rewrite <- Hin.
      apply in_map_iff. exists x. split; [reflexivity|assumption].
    + apply (Hseen x); [right; assumption|assumption].
Qed.

Lemma firsts_length (t : Table) (l : list (nat * nat)) (seen : gset CellId) :
  length (firsts t seen l) <= length l.
Proof.
  revert seen. induction l as [|x l IH]; intros seen; simpl; [lia|].
  destruct (decide (cell_at t x.1 x.2 ∈ seen)); simpl.
  - specialize (IH seen). lia.
  - specialize (IH ({[cell_at t x.1 x.2]} ∪ seen)). lia.
Qed.

Lemma firsts_sorted (t : Table) (l : list (nat * nat)) (seen : gset CellId) :
  StronglySorted lexlt l -> StronglySorted lexlt (firsts t seen l).
Proof.
  intros Hs. revert seen. induction Hs as [|x l Hs IH Hf]; intros seen; simpl;
    [constructor|].
  destruct (decide (cell_at t x.1 x.2 ∈ seen)); [apply IH|].
  constructor; [apply IH|]. apply List.Forall_forall. intros y Hy.
  apply firsts_In in Hy as [Hy _]. rewrite List.Forall_forall in Hf. auto.
Qed.

Lemma firsts_earliest (t : Table) (l : list (nat * nat)) (y : nat * nat) :
  StronglySorted lexlt l -> In y (firsts t ∅ l) ->
  forall x, In x l -> cell_at t x.1 x.2 = cell_at t y.1 y.2 -> ~ lexlt x y.
Proof.
  intros Hs Hy x Hx E Hlt.
  apply firsts_split in Hy as (l1 & l2 & Hl & Hl1).
  rewrite Hl in Hs, Hx.
  apply (Hl1 x); [|exact E]. exact (sorted_before _ _ _ _ Hs Hx Hlt).
Qed.

(** ** The growth loops *)

Lemma grow_probes_le (same : nat -> bool) (ks : list nat) :
  grow_probes same ks <= length ks.
Proof.
  induction ks as [|k ks IH]; simpl; [lia|]. destruct (same k); lia.
Qed.

Lemma grow_stays (same : nat -> bool) (ks : list nat) (e : nat) :
  (forall k, In k ks -> same k = false) -> grow same ks e = e.
Proof.
  destruct ks as [|k ks]; simpl; [reflexivity|].
  intros H. rewrite (H k) by (left; reflexivity). reflexivity.
Qed.

Lemma same_right_old (t : Table) (n r c : nat) (cell : Proxy) (k : nat) :
  built_at cell < n -> same_right t n r c cell k = false.
Proof.
  intros H. unfold same_right. apply bool_decide_eq_false_2.
  intros E. rewrite <- E in H. simpl in H. lia.
Qed.

Lemma same_down_old (t : Table) (n r c : nat) (cell : Proxy) (k : nat) :
  built_at cell < n -> same_down t n r c cell k = false.
Proof.
  intros H. unfold same_down. apply bool_decide_eq_false_2.
  intros E. rewrite <- E in H. simpl in H. lia.
Qed.

(** A proxy built before the loops start equals none of the proxies that
    the loops ask for, so neither end is moved. *)
Lemma cell_definition_unit (t : Table) (n r c : nat) (cell : Proxy) :
  built_at cell < n -> stands_for cell = cell_at t r c ->
  cell_definition t n r c cell = unit_cell t (r, c).
Proof.
  intros Hn Hc. unfold cell_definition, unit_cell. simpl.
  rewrite (grow_stays (same_right t n r c cell))
    by (intros k _; apply same_right_old; exact Hn).
  rewrite (grow_stays (same_down t _ r c cell))
    by (intros k _; apply same_down_old; lia).
  rewrite Hc. reflexivity.
Qed.

(** ** The scan, row by row *)

Lemma scan_columns (t : Table) (r m : nat) (l : list nat) :
  forall n (V : gset Proxy) (D : list CellDef) (S : gset CellId),
    m < n ->
    (forall p, p ∈ V -> built_at p < n) ->
    (forall id, mkProxy m id ∈ V <-> id ∈ S) ->
    exists n' (V' : gset Proxy),
      fold_left (fun st c => visit t r c (mkProxy m (cell_at t r c)) st) l
                (n, V, D) =
        (n', V', D ++ map (unit_cell t) (firsts t S (map (pair r) l))) /\
      n <= n' /\ (forall p, p ∈ V' -> built_at p < n').
Proof.
  induction l as [|c l IH]; intros n V D S Hm Hacc Hmem.
  - exists n, V. rewrite app_nil_r. auto.
  - cbn [fold_left map firsts fst snd]. unfold visit at 2.
    destruct (decide (mkProxy m (cell_at t r c) ∈ V)) as [Hin|Hnin].
    + destruct (decide (cell_at t r c ∈ S)) as [_|Hn];
        [|exfalso; apply Hn, Hmem, Hin].
      apply IH; assumption.
    + destruct (decide (cell_at t r c ∈ S)) as [Hs|_];
        [exfalso; apply Hnin, Hmem, Hs|].
      rewrite (cell_definition_unit t n r c) by (simpl; auto).
      destruct (IH (n + probes t n r c (mkProxy m (cell_at t r c)))
                   ({[mkProxy m (cell_at t r c)]} ∪ V)
                   (D ++ [unit_cell t (r, c)])
                   ({[cell_at t r c]} ∪ S))
        as (n' & V' & E & Hle & Hacc').
      * lia.
      * intros p Hp. apply elem_of_union in Hp as [Hp|Hp].
        -- apply elem_of_singleton in Hp. subst p. simpl. lia.
        -- specialize (Hacc p Hp). lia.
      * intros id. rewrite !elem_of_union, !elem_of_singleton, Hmem.
        split; intros [H|H]; auto; left; congruence.
      * exists n', V'. rewrite E, <- app_assoc. split; [reflexivity|].
        split; [lia|exact Hacc'].
Qed.

Lemma scan_rows (t : Table) (rs : list nat) :
  forall n (V : gset Proxy) (D : list CellDef),
    (forall p, p ∈ V -> built_at p < n) ->
    exists n' (V' : gset Proxy),
      fold_left (scan_row t) rs (n, V, D) =
        (n', V',
         D ++ map (unit_cell t)
                  (flat_map (fun r => firsts t ∅ (row_coords t r)) rs)) /\
      (forall p, p ∈ V' -> built_at p < n').
Proof.
  induction rs as [|r rs IH]; intros n V D Hacc.
  - exists n, V. rewrite app_nil_r. auto.
  - cbn [fold_left flat_map]. unfold scan_row at 2.
    destruct (scan_columns t r n (range 0 (columns t)) (S n) V D ∅)
      as (n1 & V1 & E & _ & Hacc1).
    + lia.
    + intros p Hp. specialize (Hacc p Hp). lia.
    + intros id. split; [|intros H; exfalso; exact (not_elem_of_empty _ H)].
      intros H. specialize (Hacc _ H). simpl in Hacc. lia.
    + rewrite E.
      destruct (IH n1 V1
                  (D ++ map (unit_cell t) (firsts t ∅ (row_coords t r))) Hacc1)
        as (n' & V' & E' & Hacc').
      exists n', V'. unfold row_coords in E' at 1. rewrite E', map_app, <- app_assoc.
      split; [reflexivity|exact Hacc'].
Qed.

(** The blueprint: one entry, spanning its own coordinate, for each
    coordinate at which a row meets a cell for the first time. *)
Lemma cells_firsts (t : Table) :
  cells (blueprint_of t) = map (unit_cell t) (row_firsts t).
Proof.
  unfold blueprint_of, scan_table, row_firsts. simpl.
  destruct (scan_rows t (range 0 (rows t)) 0 ∅ [])
    as (n' & V' & E & _).
  - intros p H. exfalso. exact (not_elem_of_empty _ H).
  - rewrite E. reflexivity.
Qed.

Lemma In_row_coords (t : Table) (r : nat) (rc : nat * nat) :
  In rc (row_coords t r) <-> rc.1 = r /\ rc.2 < columns t.
Proof.
  unfold row_coords, range. rewrite in_map_iff, Nat.sub_0_r. split.
  - intros (c & <- & Hc). apply in_seq in Hc. simpl. lia.
  - intros [<- Hc]. exists rc.2. split; [destruct rc; reflexivity|].
    apply in_seq. lia.
Qed.

Lemma row_coords_sorted (t : Table) (r : nat) :
  StronglySorted lexlt (row_coords t r).
Proof. apply row_sorted. Qed.

Lemma In_row_firsts (t : Table) (rc : nat * nat) :
  In rc (row_firsts t) <->
  rc.1 < rows t /\ In rc (firsts t ∅ (row_coords t rc.1)).
Proof.
  unfold row_firsts. rewrite in_flat_map. split.
  - intros (r & Hr & Hin). apply in_seq in Hr.
    pose proof (proj1 (firsts_In _ _ _ _ Hin)) as Hrow.
    apply In_row_coords in Hrow as [-> _]. split; [lia|exact Hin].
  - intros [Hr Hin]. exists rc.1. split; [apply in_seq; lia|exact Hin].
Qed.

Lemma row_firsts_in_grid (t : Table) (rc : nat * nat) :
  In rc (row_firsts t) -> rc.1 < rows t /\ rc.2 < columns t.
Proof.
  intros H. apply In_row_firsts in H as [Hr Hin]. split; [exact Hr|].
  apply firsts_In in Hin as [Hin _]. apply In_row_coords in Hin. tauto.
Qed.

Lemma cells_Forall (t : Table) (P : CellDef -> Prop) :
  (forall rc, In rc (row_firsts t) -> P (unit_cell t rc)) ->
  Forall P (cells (blueprint_of t)).
Proof.
  intros H. rewrite cells_firsts. apply List.Forall_forall.
  intros d Hd. apply in_map_iff in Hd as (rc & <- & Hrc). apply H, Hrc.
Qed.

Lemma flat_map_length_le {A B : Type} (f : A -> list B) (l : list A)
    (k : nat) :
  (forall x, length (f x) <= k) -> length (flat_map f l) <= length l * k.
Proof.
  intros H. induction l as [|x l IH]; simpl; [lia|].
  rewrite length_app. specialize (H x). lia.
Qed.

Lemma row_firsts_length (t : Table) :
  length (row_firsts t) <= rows t * columns t.
Proof.
  unfold row_firsts.
  etransitivity; [apply (flat_map_length_le _ _ (columns t))|].
  - intros r. etransitivity; [apply firsts_length|].
    unfold row_coords, range. rewrite length_map, length_seq. lia.
  - unfold range. rewrite length_seq. lia.
Qed.

Lemma flat_map_pointwise {A B : Type} (f g : A -> list B) (l : list A) :
  (forall x, In x l -> f x = g x) -> flat_map f l = flat_map g l.
Proof.
  induction l as [|x l IH]; intros H; simpl; [reflexivity|].
  rewrite (H x) by (left; reflexivity). f_equal.
  apply IH. intros y Hy. apply H. right. exact Hy.
Qed.

Lemma sorted_NoDup (l : list (nat * nat)) :
  StronglySorted lexlt l -> List.NoDup l.
Proof.
  induction 1 as [|x l Hs IH Hf]; constructor; [|assumption].
  intros Hin. rewrite List.Forall_forall in Hf.
  exact (lexlt_irrefl _ (Hf _ Hin)).
Qed.

Lemma row_firsts_sorted (t : Table) : StronglySorted lexlt (row_firsts t).
Proof.
  unfold row_firsts. generalize (rows t) as k.
  induction k as [|k IH]; [constructor|].
  rewrite range_0_S, flat_map_app. simpl. rewrite app_nil_r.
  apply sorted_app; [exact IH|apply firsts_sorted, row_coords_sorted|].
  intros x y Hx Hy. apply in_flat_map in Hx as (r & Hr & Hx).
  apply in_seq in Hr. apply firsts_In in Hx as [Hx _], Hy as [Hy _].
  apply In_row_coords in Hx as [Hx _], Hy as [Hy _].
  unfold lexlt. lia.
Qed.

Lemma filter_map_comm {A B : Type} (f : B -> bool) (g : A -> B) (l : list A) :
  List.filter f (map g l) = map g (List.filter (fun a => f (g a)) l).
Proof.
  induction l as [|a l IH]; simpl; [reflexivity|].
  destruct (f (g a)); simpl; rewrite IH; reflexivity.
Qed.

Lemma filter_none {A : Type} (f : A -> bool) (l : list A) :
  (forall x, In x l -> f x = false) -> List.filter f l = [].
Proof.
  induction l as [|a l IH]; intros H; simpl; [reflexivity|].
  rewrite (H a) by (left; reflexivity). apply IH.
  intros x Hx. apply H. right. assumption.
Qed.

Lemma NoDup_map_on {A B : Type} (f : A -> B) (l : list A) :
  (forall x y, In x l -> In y l -> f x = f y -> x = y) ->
  List.NoDup l -> List.NoDup (map f l).
Proof.
  induction l as [|a l IH]; intros Hinj Hnd; simpl; [constructor|].
  inversion Hnd as [|? ? Ha Hnd']; subst. constructor.
  - intros Hin. apply in_map_iff in Hin as (y & E & Hy).
    assert (y = a) by (apply Hinj; [right; assumption|left; reflexivity|assumption]).
    subst. contradiction.
  - apply IH; [|assumption]. intros x y Hx Hy. apply Hinj; right; assumption.
Qed.

Lemma unmerged_firsts (t : Table) :
  no_merges t -> row_firsts t = coords (rows t) (columns t).
Proof.
  intros Hnm. unfold row_firsts, coords. apply flat_map_pointwise.
  intros r Hr. apply in_seq in Hr. apply firsts_all.
  - apply NoDup_map_on; [|apply sorted_NoDup, row_coords_sorted].
    intros [r1 c1] [r2 c2] Hx Hy E.
    apply In_row_coords in Hx as [Hx1 Hx2], Hy as [Hy1 Hy2]. simpl in *.
    assert (H : r1 = r2 /\ c1 = c2) by (apply Hnm; [lia..|exact E]).
    destruct H as [-> ->]. reflexivity.
  - intros x _. apply not_elem_of_empty.
Qed.

Lemma covers_unit_cell (t : Table) (rc : nat * nat) (r c : nat) :
  covers (unit_cell t rc) r c = true <-> rc = (r, c).
Proof.
  unfold covers, unit_cell. simpl.
  rewrite !andb_true_iff, !Nat.leb_le. destruct rc as [r0 c0]. simpl.
  split; [intros H; f_equal; lia|intros H; inversion H; lia].
Qed.

(** ** Scenario tables *)

Lemma scenario_row_merged_solid : solid_rectangles scenario_row_merged.
Proof.
  intros r c Hr Hc. simpl in Hr, Hc.
  exists (match r with 0 => 0 | _ => 1 end), (match r with 0 => 0 | _ => 1 end),
         (match r, c with 0, 2 => 2 | _, _ => 0 end),
         (match r, c with 0, 0 => 1 | 0, 1 => 1 | _, _ => 2 end).
  assert (Hr' : r = 0 \/ r = 1) by lia.
  assert (Hc' : c = 0 \/ c = 1 \/ c = 2) by lia.
  destruct Hr' as [-> | ->], Hc' as [-> | [-> | ->]]; simpl;
    (split; [lia|]); (split; [lia|]);
    intros r' c' Hr' Hc';
    assert (Hr'' : r' = 0 \/ r' = 1) by lia;
    assert (Hc'' : c' = 0 \/ c' = 1 \/ c' = 2) by lia;
    destruct Hr'' as [-> | ->], Hc'' as [-> | [-> | ->]]; simpl;
    split; intros H; try lia; try discriminate; reflexivity.
Qed.

Lemma clean_2x2_no_merges : no_merges clean_2x2.
Proof.
  intros r c r' c' Hr Hc Hr' Hc'. simpl in Hr, Hc, Hr', Hc'.
  assert (H1 : r = 0 \/ r = 1) by lia.
  assert (H2 : c = 0 \/ c = 1) by lia.
  assert (H3 : r' = 0 \/ r' = 1) by lia.
  assert (H4 : c' = 0 \/ c' = 1) by lia.
  destruct H1 as [-> | ->], H2 as [-> | ->], H3 as [-> | ->], H4 as [-> | ->];
    simpl; intros E; try discriminate; split; reflexivity.
Qed.

Lemma padded_no_merges : no_merges padded.
Proof.
  intros r c r' c' Hr Hc Hr' Hc'. simpl in Hr, Hc, Hr', Hc'. lia.
Qed.

(** ** The blueprint extractor *)

(** C2, at the failing input.  The growth loops compare the proxy taken
    from [row.cells] with proxies that [table.cell] builds anew, and no two
    of these are the same object: neither end is ever moved, and every entry
    of every blueprint spans its own coordinate only.  On the scenario grid,
    with (0,0)-(0,1) merged as Math, (0,2) = Lit and the second row one
    merged cell Sci, the blueprint has the three entries (0,0)-(0,0) Math,
    (0,2)-(0,2) Lit and (1,0)-(1,0) Sci; with (1,0) a cell of its own it has
    four entries, again of one coordinate each. *)
Theorem merged_cells_are_not_grown :
  (forall t : Table,
     Forall (fun d => end_row d = start_row d /\ end_col d = start_col d)
            (cells (blueprint_of t))) /\
  cells (blueprint_of scenario_row_merged) =
    [ mkCellDef "Math" 0 0 0 0 0; mkCellDef "Lit" 0 0 2 0 2;
      mkCellDef "Sci" 0 1 0 1 0 ] /\
  cells (blueprint_of scenario_separate) =
    [ mkCellDef "Math" 0 0 0 0 0; mkCellDef "Lit" 0 0 2 0 2;
      mkCellDef "Sci" 0 1 0 1 0; mkCellDef "Sci" 0 1 1 1 1 ].
Proof.
  split; [|split; vm_compute; reflexivity].
  intros t. apply cells_Forall. intros rc _. simpl. auto.
Qed.

(** C3, at the failing input.  The scenario grid with its second row merged
    has solid rectangles only, and its coordinate (0,1) lies in no region of
    the blueprint.  So it is in every table: a coordinate whose cell was met
    before in its row is passed over as visited, and the entry made for the
    cell does not reach it. *)
Theorem merged_coordinate_lies_in_no_region :
  solid_rectangles scenario_row_merged /\
  List.filter (fun d => covers d 0 1)
              (cells (blueprint_of scenario_row_merged)) = [] /\
  (forall (t : Table) (r c c' : nat),
     r < rows t -> c' < c -> c < columns t ->
     cell_at t r c' = cell_at t r c ->
     List.filter (fun d => covers d r c) (cells (blueprint_of t)) = []).
Proof.
  split; [exact scenario_row_merged_solid|].
  split; [vm_compute; reflexivity|].
  intros t r c c' Hr Hc' Hc E. rewrite cells_firsts, filter_map_comm.
  rewrite filter_none; [reflexivity|]. intros rc Hrc.
  destruct (covers (unit_cell t rc) r c) eqn:Ecov; [|reflexivity].
  exfalso. apply covers_unit_cell in Ecov. subst rc.
  apply In_row_firsts in Hrc as [_ Hin]. simpl in Hin.
  apply (firsts_earliest t _ _ (row_coords_sorted t r) Hin (r, c')).
  - apply In_row_coords. simpl. split; [reflexivity|lia].
  - exact E.
  - unfold lexlt. simpl. lia.
Qed.

(** C4 (amended).  On a table without merges the blueprint has one entry per
    coordinate, in row-major order, [rows * columns] of them; each spans its
    own coordinate only, and its text is the text of the cell at that
    coordinate with newlines replaced by spaces and the surrounding
    whitespace stripped. *)
Theorem blueprint_of_unmerged (t : Table) :
  no_merges t ->
  cells (blueprint_of t) = map (unit_cell t) (coords (rows t) (columns t)) /\
  length (cells (blueprint_of t)) = rows t * columns t /\
  Forall (fun d =>
            end_row d = start_row d /\ end_col d = start_col d /\
            text d = normalize (cell_text t (cell_at t (start_row d) (start_col d))))
         (cells (blueprint_of t)).
Proof.
  intros Hnm.
  assert (E : cells (blueprint_of t) =
              map (unit_cell t) (coords (rows t) (columns t))).
  { rewrite cells_firsts, unmerged_firsts by assumption. reflexivity. }
  split; [exact E|]. split.
  - rewrite E, length_map. apply length_coords.
  - rewrite E. apply List.Forall_forall. intros d Hd.
    apply in_map_iff in Hd as (rc & <- & _). simpl. auto.
Qed.

Lemma blueprint_of_unmerged_witness :
  no_merges clean_2x2 /\ length (cells (blueprint_of clean_2x2)) = 4.
Proof.
  split; [exact clean_2x2_no_merges|].
  exact (proj1 (proj2 (blueprint_of_unmerged clean_2x2 clean_2x2_no_merges))).
Defined.

(** C4, as stated, fails: the single cell of [padded] has no merge, and the
    text recorded for it is not its original text. *)
Lemma padded_text_is_changed :
  no_merges padded /\
  ~ Forall (fun d => text d =
                     cell_text padded (cell_at padded (start_row d) (start_col d)))
           (cells (blueprint_of padded)).
Proof.
  split; [exact padded_no_merges|].
  intros H. vm_compute in H. inversion H as [|? ? E _]. discriminate E.
Qed.

(** C7.  A table with no rows or no columns gives a blueprint with no cells,
    and both context functions return it instead of failing. *)
Theorem empty_table_empty_blueprint (fs : FileSystem) (doc_path : string)
    (doc : Document) (table : Table) (others : list Table) :
  fs !! doc_path = Some doc -> tables doc = table :: others ->
  rows table = 0 \/ columns table = 0 ->
  cells (blueprint_of table) = [] /\
  get_document_context fs doc_path =
    Some {| document_text := doc_text doc;
            table_blueprint :=
              {| total_rows := rows table; total_columns := columns table;
                 cells := [] |} |} /\
  exists ctx, routine_get_document_context fs doc_path = Some ctx /\
              cells (table_blueprint (rc_context ctx)) = [].
Proof.
  intros Hfs Htab Hzero.
  assert (E : cells (blueprint_of table) = []).
  { rewrite cells_firsts.
    assert (Hc : row_firsts table = []).
    { apply length_zero_iff_nil.
      pose proof (row_firsts_length table). lia. }
    rewrite Hc. reflexivity. }
  split; [exact E|].
  unfold get_document_context, routine_get_document_context.
  rewrite Hfs, Htab. split.
  - f_equal. f_equal. unfold blueprint_of in *. simpl in E. rewrite E.
    reflexivity.
  - eexists. split; [reflexivity|]. exact E.
Qed.

Lemma empty_table_empty_blueprint_witness :
  cells (blueprint_of (table_of_grid 0 3 [] [])) = [].
Proof.
  apply (empty_table_empty_blueprint
           {["r.docx" := rowless_document]} "r.docx" rowless_document
           (table_of_grid 0 3 [] []) []).
  - apply lookup_singleton_eq.
  - reflexivity.
  - left. reflexivity.
Defined.

(** C8.  The extractor is a total function of the table, whatever the shape
    of its merges: it returns a blueprint with at most [rows * columns]
    entries, every region ends inside the grid, and neither growth loop
    compares more cells than remain to the right of, or below, its start,
    whatever the comparison answers.  On the L-shaped merge it returns three
    regions. *)
Theorem extractor_stays_in_grid (t : Table) :
  (exists bp, blueprint_of t = bp /\
     length (cells bp) <= rows t * columns t /\
     Forall (fun d => start_row d <= end_row d < rows t /\
                      start_col d <= end_col d < columns t) (cells bp)) /\
  (forall (same : nat -> bool) r c,
     grow_probes same (range (c + 1) (columns t)) <= columns t - (c + 1) /\
     grow_probes same (range (r + 1) (rows t)) <= rows t - (r + 1)) /\
  cells (blueprint_of l_shaped) =
    [ mkCellDef "L" 0 0 0 0 0; mkCellDef "L" 0 1 0 1 0;
      mkCellDef "x" 0 1 1 1 1 ].
Proof.
  split; [|split].
  - exists (blueprint_of t). split; [reflexivity|]. split.
    + rewrite cells_firsts, length_map. apply row_firsts_length.
    + apply cells_Forall. intros [r c] Hrc.
      apply row_firsts_in_grid in Hrc as [Hr Hc]. simpl in *. lia.
  - intros same r c. split.
    + etransitivity; [apply grow_probes_le|]. unfold range.
      rewrite length_seq. lia.
    + etransitivity; [apply grow_probes_le|]. unfold range.
      rewrite length_seq. lia.
  - vm_compute. reflexivity.
Qed.

(** ** Normalised text *)

Lemma lstrip_suffix (l : list ascii) : exists p, l = p ++ PyStr.lstrip_chars l.
Proof.
  induction l as [|a l [p IH]]; simpl; [exists []; reflexivity|].
  destruct (PyStr.isspace a).
  - exists (a :: p). simpl. f_equal. exact IH.
  - exists []. reflexivity.
Qed.

Lemma lstrip_head (l : list ascii) (a : ascii) (rest : list ascii) :
  PyStr.lstrip_chars l = a :: rest -> PyStr.isspace a = false.
Proof.
  induction l as [|b l IH]; simpl; [discriminate|].
  destruct (PyStr.isspace b) eqn:E; [exact IH|].
  intros H. inversion H; subst. exact E.
Qed.

Lemma rstrip_prefix (l : list ascii) : exists q, l = PyStr.rstrip_chars l ++ q.
Proof.
  unfold PyStr.rstrip_chars. destruct (lstrip_suffix (rev l)) as [p Hp].
  exists (rev p). rewrite <- rev_app_distr, <- Hp, rev_involutive. reflexivity.
Qed.

Lemma rstrip_last (l : list ascii) (a : ascii) (front : list ascii) :
  PyStr.rstrip_chars l = front ++ [a] -> PyStr.isspace a = false.
Proof.
  unfold PyStr.rstrip_chars. intros H. apply (f_equal (@rev ascii)) in H.
  rewrite rev_involutive, rev_app_distr in H. simpl in H.
  exact (lstrip_head _ _ _ H).
Qed.

Lemma strip_chars (s : string) :
  list_ascii_of_string (PyStr.strip s) =
  PyStr.rstrip_chars (PyStr.lstrip_chars (list_ascii_of_string s)).
Proof. unfold PyStr.strip. apply list_ascii_of_string_of_list_ascii. Qed.

Lemma strip_sublist (s : string) (a : ascii) :
  In a (list_ascii_of_string (PyStr.strip s)) -> In a (list_ascii_of_string s).
Proof.
  rewrite strip_chars. intros H.
  destruct (lstrip_suffix (list_ascii_of_string s)) as [p Hp].
  destruct (rstrip_prefix (PyStr.lstrip_chars (list_ascii_of_string s)))
    as [q Hq].
  rewrite Hp, Hq. apply in_or_app. right. apply in_or_app. left. exact H.
Qed.

Lemma strip_no_outer_space (s : string) : no_outer_space (PyStr.strip s).
Proof.
  unfold no_outer_space. rewrite strip_chars. split.
  - intros a rest H.
    destruct (rstrip_prefix (PyStr.lstrip_chars (list_ascii_of_string s)))
      as [q Hq].
    rewrite H in Hq. simpl in Hq. exact (lstrip_head _ _ _ Hq).
  - intros a front H. exact (rstrip_last _ _ _ H).
Qed.

Lemma replace_newline_no_newline (s : string) :
  no_newline (PyStr.replace_newline s).
Proof.
  unfold no_newline, PyStr.replace_newline.
  rewrite list_ascii_of_string_of_list_ascii. intros H.
  apply in_map_iff in H as (a & E & _).
  destruct (Ascii.eqb a PyStr.newline) eqn:Ea.
  - discriminate E.
  - apply Ascii.eqb_neq in Ea. congruence.
Qed.

Lemma normalize_normal (s : string) :
  no_newline (normalize s) /\ no_outer_space (normalize s).
Proof.
  unfold normalize. split; [|apply strip_no_outer_space].
  intros H. apply strip_sublist in H.
  exact (replace_newline_no_newline s H).
Qed.

(** C9.  Every text of a blueprint is normalised: it holds no newline
    character and neither starts nor ends with whitespace, whatever the
    texts of the table are. *)
Theorem blueprint_texts_normalised (t : Table) :
  Forall (fun d => no_newline (text d) /\ no_outer_space (text d))
         (cells (blueprint_of t)).
Proof.
  apply cells_Forall. intros rc _. simpl. apply normalize_normal.
Qed.

(** ** The writers *)

Lemma coords_nth (nr nc r c : nat) :
  r < nr -> c < nc -> nth_error (coords nr nc) (r * nc + c) = Some (r, c).
Proof.
  induction nr as [|nr IH]; intros Hr Hc; [lia|].
  rewrite coords_S. destruct (Nat.eq_dec r nr) as [->|NE].
  - rewrite nth_error_app2 by (rewrite length_coords; lia).
    rewrite length_coords. replace (nr * nc + c - nr * nc) with c by lia.
    rewrite nth_error_map. unfold range. rewrite Nat.sub_0_r.
    rewrite nth_error_seq.
    destruct (Nat.ltb_spec c nc) as [_|H]; [reflexivity|lia].
  - rewrite nth_error_app1 by (rewrite length_coords; nia).
    apply IH; lia.
Qed.

Lemma table_cell_in_grid (t : Table) (r c : Z) :
  (0 <= r < Z.of_nat (rows t))%Z -> (0 <= c < Z.of_nat (columns t))%Z ->
  table_cell t r c = Some (cell_at t (Z.to_nat r) (Z.to_nat c)).
Proof.
  intros Hr Hc. unfold table_cell, py_getitem.
  destruct (Z.leb_spec 0 (c + r * Z.of_nat (columns t))) as [_|H]; [|nia].
  replace (Z.to_nat (c + r * Z.of_nat (columns t)))
    with (Z.to_nat r * columns t + Z.to_nat c) by nia.
  unfold flat_cells. rewrite nth_error_map, coords_nth by lia. reflexivity.
Qed.

(** An instruction inside the grid sets the text of the cell it names. *)
Lemma execute_inside (t : Table) (r c : Z) (txt : string)
    (rest : list Instruction) :
  (0 <= r < Z.of_nat (rows t))%Z -> (0 <= c < Z.of_nat (columns t))%Z ->
  execute_instructions t (instr r c txt :: rest) =
    execute_instructions
      (set_text t (cell_at t (Z.to_nat r) (Z.to_nat c)) txt) rest /\
  routine_execute_instructions t (instr r c txt :: rest) =
    routine_execute_instructions
      (set_text t (cell_at t (Z.to_nat r) (Z.to_nat c)) txt) rest.
Proof.
  intros Hr Hc. simpl. unfold in_bounds.
  destruct (Z.ltb_spec r (Z.of_nat (rows t))) as [_|H]; [|lia].
  destruct (Z.ltb_spec c (Z.of_nat (columns t))) as [_|H]; [|lia].
  simpl. rewrite table_cell_in_grid by assumption. split; reflexivity.
Qed.

(** An instruction at or past the last row or column changes nothing, and
    the instructions after it are executed. *)
Lemma execute_beyond (t : Table) (r c : Z) (txt : string)
    (rest : list Instruction) :
  (Z.of_nat (rows t) <= r \/ Z.of_nat (columns t) <= c)%Z ->
  execute_instructions t (instr r c txt :: rest) =
    execute_instructions t rest /\
  routine_execute_instructions t (instr r c txt :: rest) =
    routine_execute_instructions t rest.
Proof.
  intros H. simpl. unfold in_bounds.
  destruct (Z.ltb_spec r (Z.of_nat (rows t))) as [Hr|Hr];
    destruct (Z.ltb_spec c (Z.of_nat (columns t))) as [Hc|Hc];
    simpl; try (split; reflexivity). lia.
Qed.

(** What the writers make of an [IndexError] raised by the loop. *)
Lemma index_error_in_writers
    (json_loads : string -> option (list Instruction)) (fs : FileSystem)
    (clean_path instructions_json save_path : string)
    (instructions : list Instruction) (doc : Document) (table : Table)
    (others : list Table) :
  json_loads instructions_json = Some instructions ->
  fs !! clean_path = Some doc -> tables doc = table :: others ->
  execute_instructions table instructions = Raised IndexError ->
  routine_execute_instructions table instructions = Raised IndexError ->
  fill_and_save_routine json_loads fs clean_path instructions_json save_path =
    (false, fs) /\
  routine_fill_and_save_routine json_loads fs clean_path instructions_json
      save_path =
    (Raised IndexError, fs).
Proof.
  intros Hj Hfs Ht He Hr.
  unfold fill_and_save_routine, routine_fill_and_save_routine.
  rewrite Hj, Hfs, Ht, He, Hr. split; reflexivity.
Qed.

(** C1, at the failing input.  The guard has no lower bound.  On the two by
    two template the instruction (-1, 0, X) passes it, [table.cell(-1, 0)]
    is the cell of the last row, and both writers set its text to X instead
    of passing the instruction over; the instruction (-3, 0, X) passes it
    too and raises [IndexError], so that the instruction after it is never
    executed. *)
Theorem negative_row_is_not_skipped :
  in_bounds clean_2x2 (-1) 0 = true /\
  table_cell clean_2x2 (-1) 0 = Some (cell_at clean_2x2 1 0) /\
  texts_after (execute_instructions clean_2x2 [instr (-1) 0 "X"]) =
    Returned [""; ""; "X"; ""] /\
  texts_after (routine_execute_instructions clean_2x2 [instr (-1) 0 "X"]) =
    Returned [""; ""; "X"; ""] /\
  execute_instructions clean_2x2 [instr (-3) 0 "X"; instr 0 0 "Y"] =
    Raised IndexError /\
  routine_execute_instructions clean_2x2 [instr (-3) 0 "X"; instr 0 0 "Y"] =
    Raised IndexError.
Proof. repeat split; vm_compute; reflexivity. Qed.

(** C10.  When the instruction string is not valid JSON both writers return
    False and the file system is what it was: nothing is saved. *)
Theorem invalid_json_saves_nothing
    (json_loads : string -> option (list Instruction)) (fs : FileSystem)
    (clean_path instructions_json save_path : string) :
  json_loads instructions_json = None ->
  fill_and_save_routine json_loads fs clean_path instructions_json save_path =
    (false, fs) /\
  routine_fill_and_save_routine json_loads fs clean_path instructions_json
      save_path =
    (Returned false, fs).
Proof.
  intros H. unfold fill_and_save_routine, routine_fill_and_save_routine.
  rewrite H. split; reflexivity.
Qed.

Lemma invalid_json_saves_nothing_witness :
  fill_and_save_routine loads_empty_array template_only "clean.docx"
    "[{" "out.docx" = (false, template_only).
Proof.
  apply (invalid_json_saves_nothing loads_empty_array template_only
           "clean.docx" "[{" "out.docx").
  reflexivity.
Defined.

(** ** Reconciliation (spec model) *)

Lemma reconcile_step_lookup (m : gmap (Z * Z) string) (f : ExpandedFill) :
  reconcile_step m f !! (fill_row f, fill_column f) =
  Some (match m !! (fill_row f, fill_column f) with
        | None => fill_text f
        | Some acc =>
            if PyStr.contains (fill_text f) acc then acc
            else acc +:+ PyStr.nl +:+ fill_text f
        end).
Proof.
  unfold reconcile_step.
  destruct (m !! (fill_row f, fill_column f)) as [acc|] eqn:E.
  - destruct (PyStr.contains (fill_text f) acc); [exact E|].
    apply lookup_insert_eq.
  - apply lookup_insert_eq.
Qed.

(** C5.  In the spec's fold the first fill of a coordinate initialises its
    entry and a later fill whose text is not yet there is appended after one
    newline; the fills (1,1,A), (1,1,B) give A, newline, B at (1,1) and the
    reversed list gives B, newline, A. *)
Theorem reconcile_order_sensitive :
  (forall m f,
     reconcile_step m f !! (fill_row f, fill_column f) =
     Some (match m !! (fill_row f, fill_column f) with
           | None => fill_text f
           | Some acc =>
               if PyStr.contains (fill_text f) acc then acc
               else acc +:+ PyStr.nl +:+ fill_text f
           end)) /\
  (forall i j nr nc,
     reconcile [mkFill i 1 1 "A"; mkFill j 1 1 "B"] nr nc !! (1%Z, 1%Z) =
       Some ("A" +:+ PyStr.nl +:+ "B") /\
     reconcile [mkFill j 1 1 "B"; mkFill i 1 1 "A"] nr nc !! (1%Z, 1%Z) =
       Some ("B" +:+ PyStr.nl +:+ "A")).
Proof.
  split; [exact reconcile_step_lookup|].
  intros i j nr nc. split; vm_compute; reflexivity.
Qed.

(** C6.  In the spec's fold a fill whose text already occurs in the
    accumulated value of its coordinate leaves the mapping as it is; folding
    the fill (1,1,A) twice gives A at (1,1). *)
Theorem reconcile_idempotent (m : gmap (Z * Z) string) (f : ExpandedFill)
    (acc : string) :
  m !! (fill_row f, fill_column f) = Some acc ->
  PyStr.contains (fill_text f) acc = true ->
  reconcile_step m f = m /\
  forall i j nr nc,
    reconcile [mkFill i 1 1 "A"; mkFill j 1 1 "A"] nr nc !! (1%Z, 1%Z) =
      Some "A".
Proof.
  intros Hm Hc. split.
  - unfold reconcile_step. rewrite Hm, Hc. reflexivity.
  - intros i j nr nc. vm_compute. reflexivity.
Qed.

Lemma reconcile_idempotent_witness :
  reconcile_step (<[(1%Z, 1%Z) := "A"]> ∅) (mkFill 0 1 1 "A") =
    <[(1%Z, 1%Z) := "A"]> ∅.
Proof.
  apply (reconcile_idempotent (<[(1%Z, 1%Z) := "A"]> ∅) (mkFill 0 1 1 "A") "A").
  - apply lookup_insert_eq.
  - reflexivity.
Defined.

(** The writers themselves do not combine texts: of two instructions for one
    coordinate the later one replaces the text set by the earlier. *)
Lemma later_instruction_overwrites :
  texts_after (execute_instructions clean_2x2 [instr 1 1 "A"; instr 1 1 "B"]) =
    Returned [""; ""; ""; "B"] /\
  texts_after
    (routine_execute_instructions clean_2x2 [instr 1 1 "A"; instr 1 1 "B"]) =
    Returned [""; ""; ""; "B"].
Proof. split; vm_compute; reflexivity. Qed.

(** ** More on the writers *)

Lemma routine_loop_filter (t : Table) (l : list Instruction) :
  routine_execute_instructions t l =
  execute_instructions t (List.filter complete l).
Proof.
  revert t. induction l as [|i l IH]; intros t; [reflexivity|].
  destruct i as [[r|] [c|] [txt|]]; simpl; try apply IH.
  destruct (in_bounds t r c); [|apply IH].
  destruct (table_cell t r c); [apply IH|reflexivity].
Qed.

Lemma filter_all {A : Type} (f : A -> bool) (l : list A) :
  Forall (fun x => f x = true) l -> List.filter f l = l.
Proof.
  induction 1 as [|x l Hx _ IH]; simpl; [reflexivity|].
  rewrite Hx, IH. reflexivity.
Qed.

(** X1.  The loop of coursefile.py behaves as the loop of routine.py run on
    the list without the objects that lack a key; on a list whose objects all
    hold the three keys the two loops agree. *)
Theorem loops_agree_on_complete_lists (t : Table) (l : list Instruction) :
  routine_execute_instructions t l =
    execute_instructions t (List.filter complete l) /\
  (Forall (fun i => complete i = true) l ->
   routine_execute_instructions t l = execute_instructions t l).
Proof.
  split; [apply routine_loop_filter|].
  intros H. rewrite routine_loop_filter, filter_all by assumption. reflexivity.
Qed.

Lemma loops_agree_on_complete_lists_witness :
  routine_execute_instructions clean_2x2 [instr 0 1 "A"; instr 5 5 "B"] =
  execute_instructions clean_2x2 [instr 0 1 "A"; instr 5 5 "B"].
Proof.
  apply (proj2 (loops_agree_on_complete_lists clean_2x2
                  [instr 0 1 "A"; instr 5 5 "B"])).
  repeat constructor.
Defined.

Lemma incomplete_raises (l : list Instruction) :
  Exists (fun i => complete i = false) l ->
  forall t, exists e, execute_instructions t l = Raised e.
Proof.
  induction 1 as [i l Hi|i l _ IH]; intros t; simpl.
  - destruct i as [[r|] [c|] [txt|]]; simpl in *; try discriminate;
      eexists; reflexivity.
  - destruct i as [[r|] [c|] [txt|]]; simpl; try (eexists; reflexivity).
    destruct (in_bounds t r c); [|apply IH].
    destruct (table_cell t r c); [apply IH|eexists; reflexivity].
Qed.

(** X2.  In routine.py one instruction object that lacks a key discards the
    whole run: whatever the other instructions are, the writer returns False
    and saves nothing. *)
Theorem missing_key_discards_run
    (json_loads : string -> option (list Instruction)) (fs : FileSystem)
    (clean_routine_path fill_instructions_json_str save_path : string)
    (instructions : list Instruction) :
  json_loads fill_instructions_json_str = Some instructions ->
  Exists (fun i => complete i = false) instructions ->
  fill_and_save_routine json_loads fs clean_routine_path
    fill_instructions_json_str save_path = (false, fs).
Proof.
  intros Hj Hex. unfold fill_and_save_routine. rewrite Hj.
  destruct (fs !! clean_routine_path) as [doc|]; [|reflexivity].
  destruct (tables doc) as [|table others]; [reflexivity|].
  destruct (incomplete_raises _ Hex table) as [e ->]. reflexivity.
Qed.

Lemma missing_key_discards_run_witness :
  fill_and_save_routine
    (loads_one "s" [instr 0 0 "A"; mkInstruction (Some 1%Z) None (Some "B")])
    template_only "clean.docx" "s" "out.docx" = (false, template_only).
Proof.
  apply (missing_key_discards_run _ template_only "clean.docx" "s" "out.docx"
           [instr 0 0 "A"; mkInstruction (Some 1%Z) None (Some "B")]).
  - reflexivity.
  - right. left. reflexivity.
Defined.

Lemma execute_drops_past_end (t : Table) (l : list Instruction) :
  execute_instructions t l =
  execute_instructions t (List.filter (fun i => negb (past_end t i)) l).
Proof.
  revert t. induction l as [|i l IH]; intros t; [reflexivity|].
  destruct i as [[r|] [c|] [txt|]]; simpl; try reflexivity.
  unfold past_end at 1; simpl.
  destruct (in_bounds t r c) eqn:Eb; simpl.
  - rewrite Eb. destruct (table_cell t r c); [|reflexivity].
    apply (IH (set_text t _ txt)).
  - apply IH.
Qed.

(** X3.  An instruction whose row is at or past the number of rows, or whose
    column is at or past the number of columns, has no effect at all: both
    loops give the same outcome with such instructions removed. *)
Theorem instructions_past_end_are_inert (t : Table) (l : list Instruction) :
  execute_instructions t l =
    execute_instructions t (List.filter (fun i => negb (past_end t i)) l) /\
  routine_execute_instructions t l =
    routine_execute_instructions t
      (List.filter (fun i => negb (past_end t i)) l).
Proof.
  split; [apply execute_drops_past_end|].
  rewrite !routine_loop_filter.
  rewrite (execute_drops_past_end t (List.filter complete l)).
  rewrite (execute_drops_past_end t (List.filter complete (List.filter _ l))).
  f_equal. induction l as [|i l IH]; [reflexivity|]. simpl.
  destruct (complete i) eqn:Ec, (past_end t i) eqn:Ep; simpl;
    rewrite ?Ec, ?Ep; simpl; rewrite ?Ep; simpl; rewrite IH; reflexivity.
Qed.



Lemma execute_shape (l : list Instruction) :
  forall t t', execute_instructions t l = Returned t' ->
    rows t' = rows t /\ columns t' = columns t /\
    cell_at t' = cell_at t /\ cell_width t' = cell_width t.
Proof.
  induction l as [|i l IH]; intros t t' He; simpl in He.
  - inversion He; subst. auto.
  - destruct i as [[r|] [c|] [txt|]]; simpl in He; try discriminate.
    destruct (in_bounds t r c); [|exact (IH t t' He)].
    destruct (table_cell t r c) as [cell|]; [|discriminate].
    exact (IH (set_text t cell txt) t' He).
Qed.

Lemma target_complete (t : Table) (i : Instruction) (id : CellId) :
  target t i = Some id -> complete i = true.
Proof.
  destruct i as [[r|] [c|] [txt|]]; unfold target; simpl; intros H;
    try discriminate; reflexivity.
Qed.

Lemma Forall_filter_keeps {A : Type} (P : A -> Prop) (f : A -> bool)
    (l : list A) :
  Forall P l -> Forall P (List.filter f l).
Proof.
  induction 1 as [|x l Hx _ IH]; simpl; [constructor|].
  destruct (f x); [constructor|]; assumption.
Qed.

Lemma either_loop_returns (t t' : Table) (l : list Instruction) :
  execute_instructions t l = Returned t' \/
  routine_execute_instructions t l = Returned t' ->
  exists l', execute_instructions t l' = Returned t' /\
    (forall P : Instruction -> Prop, Forall P l -> Forall P l') /\
    (forall l1 i l2 id, l = l1 ++ i :: l2 -> target t i = Some id ->
       exists l1' l2', l' = l1' ++ i :: l2' /\
         (forall P : Instruction -> Prop, Forall P l2 -> Forall P l2')).
Proof.
  intros [He|He].
  - exists l. split; [exact He|]. split; [auto|].
    intros l1 i l2 id -> _. exists l1, l2. auto.
  - rewrite routine_loop_filter in He. exists (List.filter complete l).
    split; [exact He|]. split; [intros P; apply Forall_filter_keeps|].
    intros l1 i l2 id -> Ht.
    exists (List.filter complete l1), (List.filter complete l2). split.
    + rewrite List.filter_app. simpl. rewrite (target_complete _ _ _ Ht).
      reflexivity.
    + intros P. apply Forall_filter_keeps.
Qed.








(** X6.  The first writer saves all or nothing.  When it returns False the
    files are what they were.  When it returns True the only file written is
    the save path; it holds the template's paragraphs, its other tables, and
    its first table with the same rows, columns, merges and widths. *)
Theorem fill_saves_all_or_nothing
    (json_loads : string -> option (list Instruction)) (fs fs' : FileSystem)
    (clean_routine_path fill_instructions_json_str save_path : string)
    (ok : bool) :
  fill_and_save_routine json_loads fs clean_routine_path
    fill_instructions_json_str save_path = (ok, fs') ->
  (ok = false -> fs' = fs) /\
  (forall p, p <> save_path -> fs' !! p = fs !! p) /\
  (ok = true ->
   exists doc table others table',
     fs !! clean_routine_path = Some doc /\ tables doc = table :: others /\
     fs' !! save_path =
       Some {| paragraphs := paragraphs doc; tables := table' :: others |} /\
     rows table' = rows table /\ columns table' = columns table /\
     cell_at table' = cell_at table /\ cell_width table' = cell_width table).
Proof.
  unfold fill_and_save_routine. intros H.
  destruct (json_loads fill_instructions_json_str) as [instructions|];
    [|inversion H; subst; repeat split; auto; discriminate].
  destruct (fs !! clean_routine_path) as [doc|] eqn:Hfs;
    [|inversion H; subst; repeat split; auto; discriminate].
  destruct (tables doc) as [|table others] eqn:Ht;
    [inversion H; subst; repeat split; auto; discriminate|].
  destruct (execute_instructions table instructions) as [table'|e] eqn:He;
    [|inversion H; subst; repeat split; auto; discriminate].
  inversion H; subst. split; [discriminate|]. split.
  - intros p Hp. apply lookup_insert_ne. congruence.
  - intros _. exists doc, table, others, table'.
    split; [reflexivity|]. split; [exact Ht|].
    split; [apply lookup_insert_eq|]. exact (execute_shape _ _ _ He).
Qed.

Lemma fill_saves_all_or_nothing_witness :
  template_only !! "out.docx" = None /\
  (<["out.docx" := {| paragraphs := []; tables := [clean_2x2] |}]>
     template_only : FileSystem) !! "clean.docx" = template_only !! "clean.docx".
Proof.
  split; [reflexivity|].
  apply (proj1 (proj2 (fill_saves_all_or_nothing loads_empty_array
                         template_only _ "clean.docx" "[]" "out.docx" true
                         eq_refl)) "clean.docx").
  discriminate.
Defined.

(** ** Blueprints of arbitrary tables *)

(** X7.  Whatever the shape of the merges, the entries of a blueprint are
    listed in row-major order of their start coordinates; no two entries
    that start in the same row come from the same cell object; and for every
    coordinate of the grid there is an entry made from its cell object that
    starts in the row of the coordinate, at or before its column.  (A cell
    object that reaches several rows has an entry in each of them.) *)
Theorem blueprint_entries_in_scan_order (t : Table) :
  StronglySorted lexlt
    (map (fun d => (start_row d, start_col d)) (cells (blueprint_of t))) /\
  List.NoDup (map (fun d => (start_row d, owner t d))
                  (cells (blueprint_of t))) /\
  forall r c, r < rows t -> c < columns t ->
    exists d, In d (cells (blueprint_of t)) /\
      owner t d = cell_at t r c /\
      start_row d = r /\ start_col d <= c.
Proof.
  rewrite cells_firsts. split; [|split].
  - rewrite map_map.
    rewrite (map_ext _ (fun rc : nat * nat => rc)) by (intros [r c]; reflexivity).
    rewrite map_id. apply row_firsts_sorted.
  - rewrite map_map. apply NoDup_map_on;
      [|apply sorted_NoDup, row_firsts_sorted].
    intros [r1 c1] [r2 c2] Hx Hy E. unfold owner in E. simpl in E.
    injection E as Er Ec. subst r2.
    apply In_row_firsts in Hx as [_ Hx], Hy as [_ Hy]. simpl in Hx, Hy.
    pose proof (firsts_earliest t _ _ (row_coords_sorted t r1) Hx (r1, c2)
                  (proj1 (firsts_In _ _ _ _ Hy)) (eq_sym Ec)) as H1.
    pose proof (firsts_earliest t _ _ (row_coords_sorted t r1) Hy (r1, c1)
                  (proj1 (firsts_In _ _ _ _ Hx)) Ec) as H2.
    unfold lexlt in H1, H2. simpl in H1, H2. f_equal. lia.
  - intros r c Hr Hc.
    assert (Hin : In (r, c) (row_coords t r))
      by (apply In_row_coords; simpl; auto).
    destruct (firsts_complete t (row_coords t r) ∅ (r, c) Hin)
      as ([r0 c0] & Hy & Ey); [apply not_elem_of_empty|].
    pose proof (proj1 (firsts_In _ _ _ _ Hy)) as Hrow.
    apply In_row_coords in Hrow as [Hr0 _]. simpl in Hr0. subst r0.
    exists (unit_cell t (r, c0)). split; [|split; [|split]].
    + apply in_map_iff. exists (r, c0). split; [reflexivity|].
      apply In_row_firsts. simpl. auto.
    + exact Ey.
    + reflexivity.
    + simpl.
      pose proof (firsts_earliest t _ _ (row_coords_sorted t r) Hy (r, c) Hin
                    (eq_sym Ey)) as H.
      unfold lexlt in H. simpl in H. lia.
Qed.

(** ** Lines of text *)

Lemma chars_str (l : list ascii) : PyChars.chars (PyChars.str l) = l.
Proof. apply list_ascii_of_string_of_list_ascii. Qed.

Lemma str_chars (s : string) : PyChars.str (PyChars.chars s) = s.
Proof. apply string_of_list_ascii_of_string. Qed.

Lemma strip_trimmed (l : list ascii) : trimmed (PyChars.strip l).
Proof.
  unfold trimmed, PyChars.strip. split.
  - intros a rest H.
    destruct (rstrip_prefix (PyStr.lstrip_chars l)) as [q Hq].
    rewrite H in Hq. simpl in Hq. exact (lstrip_head _ _ _ Hq).
  - intros a front H. exact (rstrip_last _ _ _ H).
Qed.

Lemma lstrip_fixed (l : list ascii) :
  (forall a rest, l = a :: rest -> PyStr.isspace a = false) ->
  PyStr.lstrip_chars l = l.
Proof.
  destruct l as [|a l]; intros H; simpl; [reflexivity|].
  rewrite (H a l eq_refl). reflexivity.
Qed.

Lemma trimmed_strip (l : list ascii) : trimmed l -> PyChars.strip l = l.
Proof.
  intros [Hh Hl]. unfold PyChars.strip.
  rewrite (lstrip_fixed l Hh). unfold PyStr.rstrip_chars.
  rewrite lstrip_fixed; [apply rev_involutive|].
  intros a rest H. apply (Hl a (rev rest)).
  rewrite <- (rev_involutive l), H. reflexivity.
Qed.

Lemma strip_In (l : list ascii) (a : ascii) :
  In a (PyChars.strip l) -> In a l.
Proof.
  unfold PyChars.strip. intros H.
  destruct (lstrip_suffix l) as [p Hp].
  destruct (rstrip_prefix (PyStr.lstrip_chars l)) as [q Hq].
  rewrite Hp, Hq. apply in_or_app. right. apply in_or_app. left. exact H.
Qed.

Lemma strip_unbroken (l : list ascii) : unbroken l -> unbroken (PyChars.strip l).
Proof.
  unfold unbroken. rewrite !List.Forall_forall. intros H a Ha.
  apply H, strip_In, Ha.
Qed.

Lemma splitlines_go_unbroken (l : list ascii) :
  forall after_cr cur, unbroken cur ->
    Forall unbroken (PyChars.splitlines_go after_cr cur l).
Proof.
  induction l as [|a l IH]; intros after_cr cur Hcur; simpl.
  - destruct cur; constructor; [|constructor].
    unfold unbroken in *. apply List.Forall_forall. intros x Hx.
    rewrite List.Forall_forall in Hcur. apply Hcur. apply in_rev. exact Hx.
  - destruct (after_cr && Ascii.eqb a PyChars.LF); [apply IH, Hcur|].
    destruct (PyChars.is_linebreak a) eqn:Ea.
    + constructor; [|apply IH; constructor].
      unfold unbroken in *. apply List.Forall_forall. intros x Hx.
      rewrite List.Forall_forall in Hcur. apply Hcur. apply in_rev. exact Hx.
    + apply IH. constructor; assumption.
Qed.

Lemma splitlines_go_line (line : list ascii) :
  forall cur rest, unbroken line ->
    PyChars.splitlines_go false cur (line ++ rest) =
    PyChars.splitlines_go false (rev line ++ cur) rest.
Proof.
  induction line as [|a line IH]; intros cur rest Hl; [reflexivity|].
  inversion Hl as [|? ? Ha Hl']; subst. simpl. rewrite Ha.
  rewrite IH by assumption. rewrite <- app_assoc. reflexivity.
Qed.

Lemma splitlines_join (lines : list (list ascii)) :
  Forall (fun l => unbroken l /\ l <> []) lines ->
  PyChars.splitlines (PyChars.join [PyChars.LF] lines) = lines.
Proof.
  unfold PyChars.splitlines.
  induction 1 as [|line lines [Hu Hne] Hrest IH]; [reflexivity|].
  destruct lines as [|line' lines].
  - simpl. rewrite <- (app_nil_r line) at 1.
    rewrite splitlines_go_line by assumption. simpl. rewrite app_nil_r.
    destruct (rev line) eqn:E.
    + exfalso. apply Hne. rewrite <- (rev_involutive line), E. reflexivity.
    + rewrite <- E, rev_involutive. reflexivity.
  - change (PyChars.join [PyChars.LF] (line :: line' :: lines))
      with (line ++ [PyChars.LF] ++ PyChars.join [PyChars.LF] (line' :: lines)).
    rewrite splitlines_go_line by assumption. rewrite app_nil_r.
    change ([PyChars.LF] ++ ?x) with (PyChars.LF :: x).
    cbn [PyChars.splitlines_go andb]. 
    change (PyChars.is_linebreak PyChars.LF) with true. cbv iota.
    change (Ascii.eqb PyChars.LF PyChars.CR) with false.
    rewrite rev_involutive, IH. reflexivity.
Qed.

Lemma fromkeys_go_In (l seen : list (list ascii)) (x : list ascii) :
  In x (PyChars.fromkeys_go seen l) <-> In x l /\ ~ In x seen.
Proof.
  revert seen. induction l as [|y l IH]; intros seen; simpl; [tauto|].
  destruct (in_dec _ y seen) as [Hy|Hy].
  - rewrite IH. split; [tauto|]. intros [[->|H] Hn]; tauto.
  - simpl. rewrite IH. simpl. split.
    + intros [->|[H Hn]]; [tauto|]. split; [tauto|]. tauto.
    + intros [[->|H] Hn]; [tauto|].
      destruct (List.list_eq_dec Ascii.ascii_dec y x) as [->|NE]; [tauto|].
      right. split; [assumption|]. intros [E|E]; tauto.
Qed.

Lemma fromkeys_go_NoDup (l seen : list (list ascii)) :
  List.NoDup (PyChars.fromkeys_go seen l).
Proof.
  revert seen. induction l as [|y l IH]; intros seen; simpl; [constructor|].
  destruct (in_dec _ y seen) as [Hy|Hy]; [apply IH|].
  constructor; [|apply IH]. rewrite fromkeys_go_In. simpl. tauto.
Qed.

Lemma fromkeys_go_fixed (l seen : list (list ascii)) :
  List.NoDup l -> (forall x, In x l -> ~ In x seen) ->
  PyChars.fromkeys_go seen l = l.
Proof.
  revert seen. induction l as [|y l IH]; intros seen Hnd Hs; simpl;
    [reflexivity|].
  inversion Hnd as [|? ? Hy Hnd']; subst.
  destruct (in_dec _ y seen) as [Hin|Hin].
  - exfalso. apply (Hs y); [left; reflexivity|assumption].
  - f_equal. apply IH; [assumption|].
    intros x Hx [<-|Hin']; [contradiction|].
    apply (Hs x); [right; assumption|assumption].
Qed.

Lemma unique_lines_spec (content : list ascii) :
  List.NoDup (unique_lines content) /\
  Forall (fun l => unbroken l /\ l <> [] /\ trimmed l) (unique_lines content) /\
  forall x, In x (unique_lines content) <->
    exists y, In y (PyChars.splitlines content) /\
      PyChars.strip y = x /\ x <> [].
Proof.
  unfold unique_lines, PyChars.fromkeys.
  assert (Hmem : forall x,
    In x (PyChars.fromkeys_go []
            (map PyChars.strip
               (List.filter nonblank (PyChars.splitlines content)))) <->
    exists y, In y (PyChars.splitlines content) /\
      PyChars.strip y = x /\ x <> []).
  { intros x. rewrite fromkeys_go_In, in_map_iff. split.
    - intros [(y & <- & Hy) _]. apply filter_In in Hy as [Hy Hnb].
      exists y. split; [assumption|]. split; [reflexivity|].
      unfold nonblank in Hnb. destruct (PyChars.strip y); [discriminate|].
      discriminate.
    - intros (y & Hy & <- & Hne). split; [|intros []].
      exists y. split; [reflexivity|]. apply filter_In. split; [assumption|].
      unfold nonblank. destruct (PyChars.strip y); [contradiction|reflexivity]. }
  split; [apply fromkeys_go_NoDup|]. split; [|exact Hmem].
  apply List.Forall_forall. intros x Hx. apply Hmem in Hx as (y & Hy & <- & Hne).
  split; [|split; [assumption|apply strip_trimmed]].
  apply strip_unbroken.
  pose proof (splitlines_go_unbroken content false [] (List.Forall_nil _)) as H.
  rewrite List.Forall_forall in H. apply H, Hy.
Qed.

(** X8.  The lines of the text returned by [deduplicate_content] are pairwise
    different, not empty and stripped, and a line is among them exactly when
    it is the stripped form of a non-blank line of the input: only blank
    lines, surrounding whitespace and repetitions are lost. *)
Theorem deduplicate_content_lines (content : string) :
  let lines :=
    PyChars.splitlines (PyChars.chars (deduplicate_content content)) in
  List.NoDup lines /\
  Forall (fun l => l <> [] /\ PyChars.strip l = l) lines /\
  forall x, In x lines <->
    exists y, In y (PyChars.splitlines (PyChars.chars content)) /\
      PyChars.strip y = x /\ x <> [].
Proof.
  unfold deduplicate_content. rewrite chars_str.
  destruct (unique_lines_spec (PyChars.chars content)) as (Hnd & Hall & Hmem).
  rewrite splitlines_join.
  - split; [exact Hnd|]. split; [|exact Hmem].
    eapply List.Forall_impl; [|exact Hall].
    intros l (_ & Hne & Ht). split; [assumption|apply trimmed_strip, Ht].
  - eapply List.Forall_impl; [|exact Hall]. intros l (Hu & Hne & _). auto.
Qed.

(** X9.  [deduplicate_content] is idempotent: cleaning a cleaned text
    changes nothing. *)
Theorem deduplicate_content_idempotent (content : string) :
  deduplicate_content (deduplicate_content content) =
  deduplicate_content content.
Proof.
  unfold deduplicate_content at 1 3. f_equal. f_equal.
  unfold deduplicate_content. rewrite chars_str.
  destruct (unique_lines_spec (PyChars.chars content)) as (Hnd & Hall & _).
  set (L := unique_lines (PyChars.chars content)) in *.
  unfold unique_lines at 1. rewrite splitlines_join.
  - assert (Hf : List.filter nonblank L = L).
    { apply filter_all. eapply List.Forall_impl; [|exact Hall].
      intros l (_ & Hne & Ht). unfold nonblank.
      rewrite (trimmed_strip l Ht). destruct l; [contradiction|reflexivity]. }
    assert (Hm : map PyChars.strip L = L).
    { rewrite <- (map_id L) at 2. apply map_ext_in. intros l Hl.
      rewrite List.Forall_forall in Hall. apply trimmed_strip, Hall, Hl. }
    rewrite Hf, Hm. apply fromkeys_go_fixed; [exact Hnd|auto].
  - eapply List.Forall_impl; [|exact Hall]. intros l (Hu & Hne & _). auto.
Qed.

(** ** Splitting and joining *)

Lemma split_go_pieces (sep : ascii) (l : list ascii) :
  forall cur piece a, In piece (PyChars.split_go sep cur l) -> In a piece ->
    (In a cur \/ In a l) /\ (~ In sep cur -> a <> sep).
Proof.
  induction l as [|b l IH]; intros cur piece a Hp Ha; simpl in Hp.
  - destruct Hp as [<-|[]]. apply in_rev in Ha. split; [auto|congruence].
  - destruct (Ascii.eqb b sep) eqn:Eb.
    + destruct Hp as [<-|Hp].
      * apply in_rev in Ha. split; [auto|congruence].
      * destruct (IH [] piece a Hp Ha) as [[[]|H1] H2].
        split; [right; right; exact H1|]. intros _. apply H2. intros [].
    + apply Ascii.eqb_neq in Eb.
      destruct (IH (b :: cur) piece a Hp Ha) as [[[<-|H1]|H1] H2].
      * split; [right; left; reflexivity|]. intros _. exact Eb.
      * split; [left; exact H1|]. intros Hc. apply H2.
        intros [E|E]; [congruence|contradiction].
      * split; [right; right; exact H1|]. intros Hc. apply H2.
        intros [E|E]; [congruence|contradiction].
Qed.

Lemma split_pieces (sep : ascii) (l piece : list ascii) (a : ascii) :
  In piece (PyChars.split sep l) -> In a piece -> In a l /\ a <> sep.
Proof.
  intros Hp Ha. destruct (split_go_pieces sep l [] piece a Hp Ha) as [[[]|H1] H2].
  split; [exact H1|]. apply H2. intros [].
Qed.

Lemma split_go_part (sep : ascii) (part : list ascii) :
  forall cur rest, ~ In sep part ->
    PyChars.split_go sep cur (part ++ rest) =
    PyChars.split_go sep (rev part ++ cur) rest.
Proof.
  induction part as [|a part IH]; intros cur rest Hn; [reflexivity|].
  simpl. destruct (Ascii.eqb a sep) eqn:Ea.
  - apply Ascii.eqb_eq in Ea. exfalso. apply Hn. left. exact Ea.
  - rewrite IH by (intros H; apply Hn; right; exact H).
    rewrite <- app_assoc. reflexivity.
Qed.

Lemma split_join (sep : ascii) (parts : list (list ascii)) :
  parts <> [] -> Forall (fun p => ~ In sep p) parts ->
  PyChars.split sep (PyChars.join [sep] parts) = parts.
Proof.
  unfold PyChars.split. intros Hne Hall.
  induction Hall as [|part parts Hp Hrest IH]; [contradiction|].
  destruct parts as [|part' parts].
  - simpl. rewrite <- (app_nil_r part) at 1.
    rewrite split_go_part by assumption. simpl.
    rewrite app_nil_r, rev_involutive. reflexivity.
  - change (PyChars.join [sep] (part :: part' :: parts))
      with (part ++ sep :: PyChars.join [sep] (part' :: parts)).
    rewrite split_go_part by assumption. rewrite app_nil_r. simpl.
    rewrite Ascii.eqb_refl, rev_involutive. f_equal.
    apply IH. discriminate.
Qed.

Lemma trimmed_rev (l : list ascii) :
  trimmed l <->
  (forall a rest, l = a :: rest -> PyStr.isspace a = false) /\
  (forall a rest, rev l = a :: rest -> PyStr.isspace a = false).
Proof.
  unfold trimmed. split; intros [H1 H2]; (split; [exact H1|]).
  - intros a rest H. apply (H2 a (rev rest)).
    rewrite <- (rev_involutive l), H. reflexivity.
  - intros a front H. apply (H2 a (rev front)).
    rewrite H, rev_app_distr. reflexivity.
Qed.

Lemma head_app (x y : list ascii) :
  (forall a rest, x = a :: rest -> PyStr.isspace a = false) ->
  (x = [] -> forall a rest, y = a :: rest -> PyStr.isspace a = false) ->
  forall a rest, x ++ y = a :: rest -> PyStr.isspace a = false.
Proof.
  intros Hx Hy a rest H. destruct x as [|b x]; simpl in H.
  - exact (Hy eq_refl a rest H).
  - inversion H; subst. exact (Hx a x eq_refl).
Qed.

Lemma bar_not_space : PyStr.isspace "|"%char = false.
Proof. reflexivity. Qed.

Lemma row_line_trimmed (a b c : list ascii) :
  trimmed a -> trimmed c ->
  trimmed (PyChars.join ["|"%char] [a; b; c]) /\
  PyChars.join ["|"%char] [a; b; c] <> [].
Proof.
  intros Ha Hc. apply trimmed_rev in Ha as [Ha _].
  apply trimmed_rev in Hc as [_ Hc]. simpl. split.
  - apply trimmed_rev. split.
    + apply head_app; [exact Ha|]. intros _ x rest H. inversion H; subst.
      exact bar_not_space.
    + rewrite rev_app_distr. simpl. rewrite rev_app_distr. simpl.
      rewrite <- !app_assoc. apply head_app; [exact Hc|].
      intros _ x rest H. inversion H; subst. exact bar_not_space.
  - destruct a; discriminate.
Qed.

Lemma join_lines_trimmed (lines : list (list ascii)) :
  lines <> [] -> Forall (fun l => trimmed l /\ l <> []) lines ->
  trimmed (PyChars.join [PyChars.LF] lines) /\
  PyChars.join [PyChars.LF] lines <> [].
Proof.
  intros Hne Hall. induction Hall as [|l lines [Ht Hl] Hrest IH];
    [contradiction|].
  destruct lines as [|l' lines]; [simpl; auto|].
  change (PyChars.join [PyChars.LF] (l :: l' :: lines))
    with (l ++ PyChars.LF :: PyChars.join [PyChars.LF] (l' :: lines)).
  destruct IH as [IHt IHn]; [discriminate|].
  apply trimmed_rev in Ht as [Ht _]. apply trimmed_rev in IHt as [_ IHt].
  split; [|destruct l; discriminate].
  apply trimmed_rev. split.
  - apply head_app; [exact Ht|]. intros E. contradiction.
  - rewrite rev_app_distr. simpl. rewrite <- app_assoc.
    apply head_app; [exact IHt|]. intros E. exfalso. apply IHn.
    apply (f_equal (@rev ascii)) in E. rewrite rev_involutive in E. exact E.
Qed.

Lemma str_nonempty (l : list ascii) : l <> [] -> PyChars.str l <> "".
Proof. destruct l; [contradiction|discriminate]. Qed.

(** X10.  Every row returned by [parse_api_response] has exactly three
    fields, and each field is stripped and holds neither a bar nor a line
    feed; the empty string gives no row. *)
Theorem parse_api_response_rows (result_text : string) :
  parse_api_response "" = [] /\
  Forall (fun row =>
            length row = 3 /\
            Forall (fun f => plain_field (PyChars.chars f)) row)
         (parse_api_response result_text).
Proof.
  split; [reflexivity|]. unfold parse_api_response.
  destruct (String.eqb result_text ""); [constructor|].
  apply List.Forall_forall. intros row Hrow.
  apply in_map_iff in Hrow as (parts & <- & Hparts).
  apply filter_In in Hparts as [Hparts Hlen]. apply Nat.eqb_eq in Hlen.
  rewrite length_map. split; [exact Hlen|].
  apply in_map_iff in Hparts as (line & <- & Hline).
  apply List.Forall_forall. intros f Hf.
  apply in_map_iff in Hf as (p & <- & Hp). rewrite chars_str.
  unfold parts_of in Hp. apply in_map_iff in Hp as (piece & <- & Hpiece).
  split; [apply strip_trimmed|]. split.
  - intros H. apply strip_In in H.
    destruct (split_pieces _ _ _ _ Hpiece H) as [_ Hn]. congruence.
  - intros H. apply strip_In in H.
    destruct (split_pieces _ _ _ _ Hpiece H) as [Hl _].
    destruct (split_pieces _ _ _ _ Hline Hl) as [_ Hn]. congruence.
Qed.

Lemma parts_of_row (a b c : list ascii) :
  plain_field a -> plain_field b -> plain_field c ->
  parts_of (PyChars.join ["|"%char] [a; b; c]) = [a; b; c].
Proof.
  intros (Ha & Ha' & _) (Hb & Hb' & _) (Hc & Hc' & _). unfold parts_of.
  rewrite split_join; [|discriminate|repeat constructor; assumption].
  simpl. rewrite !trimmed_strip by assumption. reflexivity.
Qed.

(** X11.  A reply in the requested format is parsed back to its rows: when
    every row has three fields that are stripped and free of bars and line
    feeds, [parse_api_response] of the rows joined by bars and line feeds is
    the list of rows. *)
Theorem parse_api_response_of_reply (data : list (list string)) :
  Forall (fun row =>
            length row = 3 /\
            Forall (fun f => plain_field (PyChars.chars f)) row) data ->
  parse_api_response (reply_of data) = data.
Proof.
  intros Hdata. destruct data as [|row0 data0] eqn:Edata; [reflexivity|].
  rewrite <- Edata in *. assert (Hne : data <> []) by (subst; discriminate).
  clear Edata row0 data0.
  set (lines := map (fun row => PyChars.join ["|"%char] (map PyChars.chars row))
                    data).
  assert (Hlines : Forall (fun l => (trimmed l /\ l <> []) /\
                                    ~ In PyChars.LF l) lines).
  { apply List.Forall_forall. intros l Hl.
    apply in_map_iff in Hl as (row & <- & Hrow).
    rewrite List.Forall_forall in Hdata.
    destruct (Hdata row Hrow) as [Hlen Hf].
    destruct row as [|a [|b [|c [|d row]]]]; try discriminate.
    inversion Hf as [|? ? Pa Hf1]; subst. inversion Hf1 as [|? ? Pb Hf2]; subst.
    inversion Hf2 as [|? ? Pc _]; subst.
    split.
    - apply row_line_trimmed; [apply Pa|apply Pc].
    - simpl. destruct Pa as (_ & _ & Na), Pb as (_ & _ & Nb), Pc as (_ & _ & Nc).
      rewrite !in_app_iff. simpl. rewrite !in_app_iff. simpl.
      intros [H|[H|[H|[H|H]]]]; try contradiction; discriminate H. }
  assert (Hlne : lines <> []) by (unfold lines; destruct data; [contradiction|discriminate]).
  destruct (join_lines_trimmed lines Hlne) as [Ht Hn].
  { eapply List.Forall_impl; [|exact Hlines]. intros l [H _]. exact H. }
  unfold parse_api_response, reply_of. fold lines.
  destruct (String.eqb_spec (PyChars.str (PyChars.join [PyChars.LF] lines)) "")
    as [E|_]; [exfalso; exact (str_nonempty _ Hn E)|].
  rewrite chars_str, (trimmed_strip _ Ht).
  rewrite split_join; [|exact Hlne|].
  2:{ eapply List.Forall_impl; [|exact Hlines]. intros l [_ H]. exact H. }
  unfold lines. rewrite map_map.
  clear lines Hlines Hlne Ht Hn Hne.
  induction Hdata as [|row data [Hlen Hf] _ IH]; [reflexivity|].
  destruct row as [|a [|b [|c [|d row]]]]; try discriminate.
  inversion Hf as [|? ? Pa Hf1]; subst. inversion Hf1 as [|? ? Pb Hf2]; subst.
  inversion Hf2 as [|? ? Pc _]; subst.
  cbn [map List.filter]. rewrite (parts_of_row _ _ _ Pa Pb Pc).
  cbn [length Nat.eqb map]. rewrite !str_chars. f_equal. exact IH.
Qed.

Lemma parse_api_response_of_reply_witness :
  parse_api_response (reply_of [["1a"; "2"; "Apply"]; ["1b"; ""; "Create"]]) =
  [["1a"; "2"; "Apply"]; ["1b"; ""; "Create"]].
Proof.
  apply parse_api_response_of_reply.
  repeat constructor; try (intros a rest H; inversion H; subst; reflexivity);
    try (intros a front H; vm_compute in H;
         repeat (destruct front as [|? front]; try discriminate H);
         inversion H; subst; reflexivity);
    try (vm_compute; intuition discriminate).
Defined.

(** ** Cleaned topics *)

Lemma collapse_single (l : list ascii) :
  forall b, single_spaced (collapse_whitespace b l) /\
    (b = true -> forall a rest, collapse_whitespace b l = a :: rest ->
       PyStr.isspace a = false).
Proof.
  induction l as [|a l IH]; intros b; simpl.
  - split; [exact I|]. intros _ x rest H. discriminate H.
  - destruct (PyStr.isspace a) eqn:Ea.
    + destruct b.
      * apply IH.
      * destruct (IH true) as [Hs Hh]. split; [|discriminate]. simpl.
        split; [|exact Hs]. intros _. split; [reflexivity|].
        destruct (collapse_whitespace true l) as [|x rest] eqn:E; [exact I|].
        exact (Hh eq_refl x rest eq_refl).
    + destruct (IH false) as [Hs _]. split.
      * simpl. split; [|exact Hs]. intros H. congruence.
      * intros _ x rest H. inversion H; subst. exact Ea.
Qed.

Lemma single_spaced_suffix (p q : list ascii) :
  single_spaced (p ++ q) -> single_spaced q.
Proof.
  induction p as [|a p IH]; simpl; [auto|]. intros [_ H]. exact (IH H).
Qed.

Lemma single_spaced_prefix (p q : list ascii) :
  single_spaced (p ++ q) -> single_spaced p.
Proof.
  induction p as [|a p IH]; simpl; [auto|]. intros [Ha H].
  split; [|exact (IH H)]. intros Hs. destruct (Ha Hs) as [E Hn].
  split; [exact E|]. destruct p; [exact I|exact Hn].
Qed.

Lemma strip_single_spaced (l : list ascii) :
  single_spaced l -> single_spaced (PyChars.strip l).
Proof.
  intros H. unfold PyChars.strip.
  destruct (lstrip_suffix l) as [p Hp]. rewrite Hp in H.
  apply single_spaced_suffix in H.
  destruct (rstrip_prefix (PyStr.lstrip_chars l)) as [q Hq]. rewrite Hq in H.
  exact (single_spaced_prefix _ _ H).
Qed.

Lemma collapse_fixed (l : list ascii) :
  forall b, single_spaced l ->
    (b = true -> forall a rest, l = a :: rest -> PyStr.isspace a = false) ->
    collapse_whitespace b l = l.
Proof.
  induction l as [|a l IH]; intros b Hs Hb; [reflexivity|].
  simpl in *. destruct Hs as [Ha Hs]. destruct (PyStr.isspace a) eqn:Ea.
  - destruct b; [rewrite (Hb eq_refl a l eq_refl) in Ea; discriminate|].
    destruct (Ha eq_refl) as [-> Hn]. f_equal. apply IH; [exact Hs|].
    intros _ x rest ->. exact Hn.
  - f_equal. apply IH; [exact Hs|discriminate].
Qed.

(** X12.  A cleaned topic is in normal form: it neither starts nor ends with
    whitespace, and every whitespace character in it is a single space
    standing between two other characters.  A value that is not a string is
    cleaned to the empty string. *)
Theorem clean_text_normal_form (text : option string) :
  clean_text None = "" /\
  trimmed (PyChars.chars (clean_text text)) /\
  single_spaced (PyChars.chars (clean_text text)).
Proof.
  split; [reflexivity|]. destruct text as [s|]; simpl.
  - rewrite chars_str. split; [apply strip_trimmed|].
    apply strip_single_spaced, collapse_single.
  - split; [split; intros a r H; [discriminate H|destruct r; discriminate H]|].
    exact I.
Qed.

(** X13.  [clean_text] is idempotent, so that cleaning never splits a group
    of topics that it has once put together. *)
Theorem clean_text_idempotent (text : option string) :
  clean_text (Some (clean_text text)) = clean_text text.
Proof.
  destruct text as [s|]; [|reflexivity]. simpl. f_equal. rewrite chars_str.
  set (r := PyChars.strip (collapse_whitespace false (PyChars.chars s))).
  assert (Ht : trimmed r) by apply strip_trimmed.
  assert (Hs : single_spaced r) by apply strip_single_spaced, collapse_single.
  rewrite (collapse_fixed r false Hs) by discriminate.
  apply trimmed_strip, Ht.
Qed.

(** ** Course file names *)

Lemma chars_append (a b : string) :
  PyChars.chars (a +:+ b) = PyChars.chars a ++ PyChars.chars b.
Proof.
  unfold PyChars.chars. induction a as [|x a IH]; simpl; [reflexivity|].
  f_equal. exact IH.
Qed.

Lemma startswith_app (p l : list ascii) : PyChars.startswith (p ++ l) p = true.
Proof.
  induction p as [|a p IH]; simpl; [destruct l; reflexivity|].
  rewrite Ascii.eqb_refl. exact IH.
Qed.

Lemma unsafe_not_alnum (a : ascii) :
  unsafe_in_name a = true -> is_lower_alnum (PyChars.lower_char a) = false.
Proof.
  destruct a as [[] [] [] [] [] [] [] []]; vm_compute; intros H;
    first [reflexivity | discriminate H].
Qed.

Lemma safe_lower (a : ascii) :
  unsafe_in_name a = true -> PyChars.lower_char a = a.
Proof.
  destruct a as [[] [] [] [] [] [] [] []]; vm_compute; intros H;
    first [reflexivity | discriminate H].
Qed.

Lemma normalize_safe_name (subject : string) :
  normalize_string (safe_name subject) = normalize_string subject.
Proof.
  unfold normalize_string, safe_name. rewrite chars_str. f_equal.
  unfold PyChars.lower.
  induction (PyChars.chars subject) as [|a l IH]; [reflexivity|]. simpl.
  destruct (unsafe_in_name a) eqn:Ea; simpl.
  - rewrite (unsafe_not_alnum a Ea). exact IH.
  - destruct (is_lower_alnum (PyChars.lower_char a)); rewrite IH; reflexivity.
Qed.

Lemma lower_safe_suffix :
  PyChars.lower (PyChars.chars ".docx") = PyChars.chars ".docx".
Proof. reflexivity. Qed.

Lemma own_file_names_course (subject : string) :
  names_course (normalize_string subject) (course_file_name subject) = true.
Proof.
  unfold names_course, course_file_name.
  rewrite !chars_append.
  set (x := PyChars.chars (safe_name subject)).
  apply andb_true_iff. split; [apply andb_true_iff; split|].
  - unfold PyChars.lower. rewrite map_app. apply startswith_app.
  - unfold PyChars.endswith, PyChars.lower.
    rewrite app_assoc, map_app, rev_app_distr. apply startswith_app.
  - apply String.eqb_eq. rewrite <- (normalize_safe_name subject). f_equal.
    unfold PyChars.slice_to_back.
    replace (length (PyChars.chars "CourseFile_" ++ x ++ PyChars.chars ".docx")
             - 5)
      with (length (PyChars.chars "CourseFile_" ++ x))
      by (rewrite !length_app; simpl; lia).
    rewrite app_assoc, firstn_app, firstn_all, Nat.sub_diag. simpl.
    rewrite app_nil_r. unfold x. apply str_chars.
Qed.

(** X14.  The course table that [generate_course_files] saves for a subject
    is found again by the search of [run_course_table_process] for that
    subject: its name passes the test of the search loop, so when the file is
    in the directory the search returns a file that passes the test. *)
Theorem generated_course_file_is_found (subject : string)
    (listing : list string) :
  names_course (normalize_string subject) (course_file_name subject) = true /\
  (In (course_file_name subject) listing ->
   exists filename,
     find_course_file listing subject = Some filename /\
     In filename listing /\
     names_course (normalize_string subject) filename = true).
Proof.
  split; [apply own_file_names_course|]. intros Hin.
  unfold find_course_file.
  destruct (List.find (names_course (normalize_string subject)) listing)
    as [f|] eqn:E.
  - exists f. apply find_some in E. tauto.
  - exfalso. pose proof (find_none _ _ E _ Hin) as H.
    rewrite own_file_names_course in H. discriminate H.
Qed.

Lemma generated_course_file_is_found_witness :
  exists filename,
    find_course_file ["notes.txt"; "CourseFile_Signals & Systems.docx"]
      "Signals & Systems?" = Some filename.
Proof.
  destruct (proj2 (generated_course_file_is_found "Signals & Systems?"
                     ["notes.txt"; "CourseFile_Signals & Systems.docx"]))
    as (f & Hf & _).
  - right. left. reflexivity.
  - exists f. exact Hf.
Defined.

(** ** Replies without fences *)

Lemma startswith_prefix (n p q : list ascii) :
  PyChars.startswith p n = true -> PyChars.startswith (p ++ q) n = true.
Proof.
  revert p. induction n as [|a n IH]; intros p H; [reflexivity|].
  destruct p as [|b p]; simpl in *; [discriminate|].
  apply andb_true_iff in H as [H1 H2]. rewrite H1. simpl. exact (IH p H2).
Qed.

Lemma contains_suffix (n p q : list ascii) :
  PyChars.contains n q = true -> PyChars.contains n (p ++ q) = true.
Proof.
  intros H. induction p as [|a p IH]; [exact H|].
  simpl. rewrite IH. apply orb_true_r.
Qed.

Lemma contains_prefix (n p q : list ascii) :
  PyChars.contains n p = true -> PyChars.contains n (p ++ q) = true.
Proof.
  induction p as [|a p IH]; intros H.
  - simpl in H. rewrite orb_false_r in H.
    apply (startswith_prefix n [] q) in H. simpl in H.
    destruct q; simpl; rewrite H; reflexivity.
  - simpl in H. apply orb_true_iff in H as [H|H].
    + apply (startswith_prefix n (a :: p) q) in H. simpl in *. rewrite H.
      reflexivity.
    + simpl. rewrite (IH H). apply orb_true_r.
Qed.

Lemma strip_contains (n l : list ascii) :
  PyChars.contains n l = false -> PyChars.contains n (PyChars.strip l) = false.
Proof.
  intros H. destruct (PyChars.contains n (PyChars.strip l)) eqn:E;
    [|reflexivity].
  unfold PyChars.strip in E.
  destruct (lstrip_suffix l) as [p Hp].
  destruct (rstrip_prefix (PyStr.lstrip_chars l)) as [q Hq].
  apply (contains_prefix n _ q) in E. rewrite <- Hq in E.
  apply (contains_suffix n p) in E. rewrite <- Hp in E. congruence.
Qed.

Lemma remove_fence_match (rest : list ascii) :
  PyChars.remove fence (backtick :: backtick :: backtick :: rest) =
  PyChars.remove fence rest.
Proof. reflexivity. Qed.

Lemma remove_fence_other (a : ascii) (l : list ascii) :
  PyChars.startswith (a :: l) fence = false ->
  PyChars.remove fence (a :: l) = a :: PyChars.remove fence l.
Proof.
  intros H. unfold PyChars.remove. cbn [PyChars.remove_go]. rewrite H.
  reflexivity.
Qed.

Lemma startswith_fence (l : list ascii) :
  PyChars.startswith l fence = true ->
  exists rest, l = backtick :: backtick :: backtick :: rest.
Proof.
  destruct l as [|a [|b [|c rest]]]; cbn [PyChars.startswith fence]; intros H;
    repeat (apply andb_true_iff in H as [? H]); try discriminate.
  repeat match goal with E : Ascii.eqb _ _ = true |- _ =>
    apply Ascii.eqb_eq in E end.
  subst. exists rest. reflexivity.
Qed.

Lemma remove_fence_free (n : nat) :
  forall l, length l <= n ->
    PyChars.contains fence (PyChars.remove fence l) = false /\
    (PyChars.startswith l [backtick; backtick] = false ->
     PyChars.startswith (PyChars.remove fence l) [backtick; backtick] = false) /\
    (PyChars.startswith l [backtick] = false ->
     PyChars.startswith (PyChars.remove fence l) [backtick] = false).
Proof.
  induction n as [|n IH]; intros l Hlen.
  - destruct l; [|simpl in Hlen; lia]. repeat split; reflexivity.
  - destruct (PyChars.startswith l fence) eqn:Ef.
    + destruct (startswith_fence l Ef) as [rest ->].
      rewrite remove_fence_match. simpl in Hlen.
      destruct (IH rest ltac:(lia)) as (H1 & _ & _).
      split; [exact H1|]. split; intros H; vm_compute in H; discriminate H.
    + destruct l as [|a l]; [repeat split; reflexivity|].
      rewrite (remove_fence_other a l Ef). simpl in Hlen.
      destruct (IH l ltac:(lia)) as (H1 & H2 & H3).
      cbn [PyChars.startswith PyChars.contains fence] in *.
      destruct (Ascii.eqb backtick a) eqn:Ea; cbn [andb orb] in *.
      * rewrite H1, (H2 Ef). split; [reflexivity|]. split; [exact H3|].
        discriminate.
      * rewrite H1. repeat split; reflexivity.
Qed.

(** X15.  The reply handed on to the writer holds no Markdown fence: after
    the two substitutions no run of three backticks is left, however the
    backticks of the reply were arranged, and the reply is stripped. *)
Theorem cleaned_response_has_no_fence (text : string) :
  PyChars.contains fence (PyChars.chars (cleaned_response text)) = false /\
  trimmed (PyChars.chars (cleaned_response text)).
Proof.
  unfold cleaned_response. rewrite chars_str.
  split; [|apply strip_trimmed].
  apply strip_contains.
  exact (proj1 (remove_fence_free _ _ (le_n _))).
Qed.

(** ** Sorted topics *)

Lemma chars_lt_asym (s s' : list ascii) :
  chars_lt s s' = true -> chars_lt s' s = false.
Proof.
  revert s'. induction s as [|a s IH]; intros [|b s']; simpl; try congruence.
  intros H.
  destruct (Nat.ltb_spec (nat_of_ascii a) (nat_of_ascii b)),
           (Nat.ltb_spec (nat_of_ascii b) (nat_of_ascii a)),
           (Nat.eqb_spec (nat_of_ascii a) (nat_of_ascii b)),
           (Nat.eqb_spec (nat_of_ascii b) (nat_of_ascii a));
    simpl in *; try lia; try reflexivity; try discriminate.
  exact (IH s' H).
Qed.

Lemma chars_le_trans (a b c : list ascii) :
  chars_lt b a = false -> chars_lt c b = false -> chars_lt c a = false.
Proof.
  revert b c. induction a as [|x a IH]; intros [|y b] [|z c]; simpl;
    try congruence.
  intros H1 H2.
  destruct (Nat.ltb_spec (nat_of_ascii y) (nat_of_ascii x)),
           (Nat.ltb_spec (nat_of_ascii z) (nat_of_ascii y)),
           (Nat.ltb_spec (nat_of_ascii z) (nat_of_ascii x)),
           (Nat.eqb_spec (nat_of_ascii y) (nat_of_ascii x)),
           (Nat.eqb_spec (nat_of_ascii z) (nat_of_ascii y)),
           (Nat.eqb_spec (nat_of_ascii z) (nat_of_ascii x));
    simpl in *; try lia; try reflexivity; try discriminate.
  exact (IH b c H1 H2).
Qed.

Lemma key_lt_asym (k k' : SortKey) : key_lt k k' = true -> key_le k k'.
Proof.
  unfold key_le. destruct k as [m n|s], k' as [m' n'|s']; simpl;
    try congruence.
  - intros H.
    destruct (N.ltb_spec m m'), (N.ltb_spec m' m), (N.eqb_spec m m'),
             (N.eqb_spec m' m), (N.ltb_spec n n'), (N.ltb_spec n' n);
      simpl in *; try lia; try reflexivity; try discriminate.
  - apply chars_lt_asym.
Qed.

Lemma key_le_trans (a b c : SortKey) : key_le a b -> key_le b c -> key_le a c.
Proof.
  unfold key_le. destruct a as [m n|s], b as [m' n'|s'], c as [m'' n''|s''];
    simpl; try congruence.
  - intros H1 H2.
    destruct (N.ltb_spec m' m), (N.ltb_spec m'' m'), (N.ltb_spec m'' m),
             (N.eqb_spec m' m), (N.eqb_spec m'' m'), (N.eqb_spec m'' m),
             (N.ltb_spec n' n), (N.ltb_spec n'' n'), (N.ltb_spec n'' n);
      simpl in *; try lia; try reflexivity; try discriminate.
  - intros H1 H2. exact (chars_le_trans _ _ _ H1 H2).
Qed.

Lemma insert_topic_perm (x : string) (l : list string) :
  Permutation (insert_topic x l) (x :: l).
Proof.
  induction l as [|y l IH]; simpl; [reflexivity|].
  destruct (key_lt (get_sort_key y) (get_sort_key x)); [|reflexivity].
  rewrite IH. apply perm_swap.
Qed.

Lemma insert_topic_sorted (x : string) (l : list string) :
  StronglySorted (fun a b => key_le (get_sort_key a) (get_sort_key b)) l ->
  StronglySorted (fun a b => key_le (get_sort_key a) (get_sort_key b))
                 (insert_topic x l).
Proof.
  induction 1 as [|y l Hs IH Hf]; simpl; [repeat constructor|].
  destruct (key_lt (get_sort_key y) (get_sort_key x)) eqn:E.
  - constructor; [exact IH|]. apply List.Forall_forall. intros z Hz.
    apply (Permutation_in _ (insert_topic_perm x l)) in Hz.
    destruct Hz as [<-|Hz]; [exact (key_lt_asym _ _ E)|].
    rewrite List.Forall_forall in Hf. exact (Hf z Hz).
  - constructor; [constructor; assumption|].
    constructor; [exact E|]. apply List.Forall_forall. intros z Hz.
    rewrite List.Forall_forall in Hf.
    exact (key_le_trans _ _ _ E (Hf z Hz)).
Qed.

(** X16.  The sorted topics are the given topics in another order, their
    keys never decrease, and so every numbered topic stands before every
    topic without a number, the numbered ones by major and then minor number
    (1.2 before 1.10) and the others by their text. *)
Theorem sorted_topics_sorted (topics : list string) :
  Permutation (sorted_topics topics) topics /\
  StronglySorted (fun a b => key_le (get_sort_key a) (get_sort_key b))
                 (sorted_topics topics) /\
  (forall before x after major minor,
     sorted_topics topics = before ++ x :: after ->
     get_sort_key x = Numbered major minor ->
     Forall (fun y => exists major' minor',
               get_sort_key y = Numbered major' minor' /\
               (major' < major \/ major' = major /\ minor' <= minor)%N)
            before).
Proof.
  assert (Hp : Permutation (sorted_topics topics) topics).
  { induction topics as [|x l IH]; simpl; [reflexivity|].
    rewrite insert_topic_perm. constructor. exact IH. }
  assert (Hs : StronglySorted
                 (fun a b => key_le (get_sort_key a) (get_sort_key b))
                 (sorted_topics topics)).
  { clear Hp. induction topics as [|x l IH]; simpl; [constructor|].
    apply insert_topic_sorted, IH. }
  split; [exact Hp|]. split; [exact Hs|].
  intros before x after major minor E Hx. rewrite E in Hs.
  clear E Hp. induction before as [|y before IH]; [constructor|].
  simpl in Hs. apply StronglySorted_inv in Hs as [Hs Hf].
  constructor; [|exact (IH Hs)].
  rewrite List.Forall_forall in Hf.
  assert (Hle : key_le (get_sort_key y) (get_sort_key x)).
  { apply Hf. apply in_or_app. right. left. reflexivity. }
  rewrite Hx in Hle. unfold key_le in Hle.
  destruct (get_sort_key y) as [m n|s]; simpl in Hle; [|discriminate].
  exists m, n. split; [reflexivity|].
  destruct (N.ltb_spec major m), (N.eqb_spec major m), (N.ltb_spec minor n);
    simpl in Hle; try discriminate; lia.
Qed.

(** ** Course details *)

Ltac case_if :=
  match goal with
  | |- context [if ?b then _ else _] => destruct b eqn:?
  end.

Lemma until_newline_no_LF (l : list ascii) : ~ In PyChars.LF (until_newline l).
Proof.
  induction l as [|a l IH]; simpl; [tauto|].
  destruct (Ascii.eqb a PyChars.LF) eqn:E; [tauto|].
  apply Ascii.eqb_neq in E. intros [H|H]; [congruence|contradiction].
Qed.

Lemma course_group_no_LF (l g : list ascii) :
  course_group l = Some g -> ~ In PyChars.LF g.
Proof.
  induction l as [|a l IH]; [discriminate|].
  cbn [course_group]. case_if; [|exact IH].
  intros H. inversion H; subst. apply until_newline_no_LF.
Qed.

Lemma last_In {A : Type} (l : list A) (d : A) :
  l <> [] -> In (List.last l d) l.
Proof.
  induction l as [|a l IH]; [contradiction|]. intros _.
  destruct l as [|b l]; [left; reflexivity|].
  right. apply IH. discriminate.
Qed.

Lemma after_last_colon_plain (l : list ascii) :
  trimmed (after_last_colon l) /\ ~ In ":"%char (after_last_colon l).
Proof.
  unfold after_last_colon. split; [apply strip_trimmed|].
  intros H. apply strip_In in H.
  destruct (PyChars.split ":" l) as [|p ps] eqn:E; [contradiction|].
  assert (Hin : In (List.last (p :: ps) []) (PyChars.split ":" l))
    by (rewrite E; apply last_In; discriminate).
  destruct (split_pieces _ _ _ _ Hin H) as [_ Hn]. congruence.
Qed.

Lemma scan_paragraphs_plain (paras : list string) :
  forall c s,
    (forall x, c = Some x -> trimmed x /\ ~ In PyChars.LF x) ->
    (forall x, s = Some x -> trimmed x /\ ~ In ":"%char x) ->
    (forall x, fst (scan_paragraphs c s paras) = Some x ->
       trimmed x /\ ~ In PyChars.LF x) /\
    (forall x, snd (scan_paragraphs c s paras) = Some x ->
       trimmed x /\ ~ In ":"%char x).
Proof.
  induction paras as [|para paras IH]; intros c s Hc Hs; [simpl; auto|].
  cbn [scan_paragraphs].
  set (c' := match c with
             | None => option_map PyChars.strip (course_group (PyChars.chars para))
             | Some _ => c
             end).
  set (s' := match s with
             | None =>
                 if PyChars.contains (PyChars.chars "Semester:")
                                     (PyChars.chars para)
                 then Some (after_last_colon (PyChars.chars para)) else None
             | Some _ => s
             end).
  assert (Hc' : forall x, c' = Some x -> trimmed x /\ ~ In PyChars.LF x).
  { intros x. unfold c'. destruct c as [y|]; [apply Hc|].
    destruct (course_group (PyChars.chars para)) as [g|] eqn:Eg;
      [|discriminate].
    simpl. intros H. inversion H; subst. split; [apply strip_trimmed|].
    intros Hin. apply strip_In in Hin.
    exact (course_group_no_LF _ _ Eg Hin). }
  assert (Hs' : forall x, s' = Some x -> trimmed x /\ ~ In ":"%char x).
  { intros x. unfold s'. destruct s as [y|]; [apply Hs|].
    case_if; [|discriminate].
    intros H. inversion H; subst. apply after_last_colon_plain. }
  destruct (truthy c' && truthy s'); [simpl; auto|].
  apply IH; assumption.
Qed.

(** X17.  When [extract_course_details] returns a course name and a
    semester, neither is empty, both are stripped, the course name holds no
    line feed and the semester holds no colon. *)
Theorem extract_course_details_shape (fs : FileSystem)
    (course_file_path course_name semester : string) :
  extract_course_details fs course_file_path = Some (course_name, semester) ->
  course_name <> "" /\ semester <> "" /\
  trimmed (PyChars.chars course_name) /\ trimmed (PyChars.chars semester) /\
  ~ In PyChars.LF (PyChars.chars course_name) /\
  ~ In ":"%char (PyChars.chars semester).
Proof.
  unfold extract_course_details.
  destruct (fs !! course_file_path) as [doc|]; [|discriminate].
  destruct (scan_paragraphs_plain (paragraphs doc) None None) as [Hc Hs];
    try discriminate.
  destruct (scan_paragraphs None None (paragraphs doc)) as [c s].
  simpl in Hc, Hs.
  destruct c as [[|a c]|], s as [[|b s]|]; cbn [truthy andb];
    try discriminate.
  intros H. inversion H; subst.
  change (String a (PyChars.str c)) with (PyChars.str (a :: c)).
  change (String b (PyChars.str s)) with (PyChars.str (b :: s)).
  rewrite !chars_str.
  destruct (Hc _ eq_refl) as [Hc1 Hc2]. destruct (Hs _ eq_refl) as [Hs1 Hs2].
  repeat split; try discriminate; try apply Hc1; try apply Hs1; assumption.
Qed.

Lemma extract_course_details_shape_witness :
  extract_course_details course_file_sample "course.docx" =
    Some ("Signals and Systems", "5th") /\
  trimmed (PyChars.chars "Signals and Systems") /\
  ~ In ":"%char (PyChars.chars "5th").
Proof.
  split; [reflexivity|].
  destruct (extract_course_details_shape course_file_sample "course.docx"
              "Signals and Systems" "5th" eq_refl)
    as (_ & _ & H1 & _ & _ & H2).
  split; assumption.
Defined.

Lemma scan_course_stuck (paras : list string) :
  forall s, fst (scan_paragraphs (Some []) s paras) = Some [].
Proof.
  induction paras as [|para paras IH]; intros s; [reflexivity|].
  cbn [scan_paragraphs truthy andb]. apply IH.
Qed.

Lemma scan_without_course (before rest : list string) :
  Forall (fun p => course_group (PyChars.chars p) = None) before ->
  forall s, exists s',
    scan_paragraphs None s (before ++ rest) = scan_paragraphs None s' rest.
Proof.
  induction 1 as [|para before Hp _ IH]; intros s; [exists s; reflexivity|].
  cbn [app scan_paragraphs]. rewrite Hp. cbn [option_map truthy andb].
  apply IH.
Qed.

(** X18.  A course label with nothing after it hides every later one: when
    the first paragraph that holds the label gives an empty name, the name is
    never looked for again and [extract_course_details] returns nothing,
    whatever the paragraphs after it are. *)
Theorem empty_course_label_hides_later_ones (fs : FileSystem)
    (course_file_path : string) (doc : Document) (before after : list string)
    (para : string) (group : list ascii) :
  fs !! course_file_path = Some doc ->
  paragraphs doc = before ++ para :: after ->
  Forall (fun p => course_group (PyChars.chars p) = None) before ->
  course_group (PyChars.chars para) = Some group ->
  PyChars.strip group = [] ->
  extract_course_details fs course_file_path = None.
Proof.
  intros Hfs Hdoc Hbefore Hgroup Hempty. unfold extract_course_details.
  rewrite Hfs, Hdoc.
  destruct (scan_without_course before (para :: after) Hbefore None)
    as [s' ->].
  cbn [scan_paragraphs]. rewrite Hgroup. cbn [option_map]. rewrite Hempty.
  cbn [truthy andb].
  pose proof (scan_course_stuck after
                (match s' with
                 | None =>
                     if PyChars.contains (PyChars.chars "Semester:")
                                         (PyChars.chars para)
                     then Some (after_last_colon (PyChars.chars para))
                     else None
                 | Some _ => s'
                 end)) as H.
  destruct (scan_paragraphs (Some []) _ after) as [c s]. simpl in H.
  rewrite H. reflexivity.
Qed.

Lemma empty_course_label_hides_later_ones_witness :
  extract_course_details course_file_with_empty_label "course.docx" = None.
Proof.
  apply (empty_course_label_hides_later_ones course_file_with_empty_label
           "course.docx"
           {| paragraphs := ["Course:"; "Semester: 5th"; "Course: Signals"];
              tables := [] |}
           [] ["Semester: 5th"; "Course: Signals"] "Course:" []).
  - apply lookup_singleton_eq.
  - reflexivity.
  - constructor.
  - reflexivity.
  - reflexivity.
Defined.

(** ** Semester numbers *)

Lemma span_digits_spec (l : list ascii) :
  Forall (fun a => PyChars.is_digit a = true) (fst (span_digits l)) /\
  l = fst (span_digits l) ++ snd (span_digits l).
Proof.
  induction l as [|a l [IH1 IH2]]; simpl; [split; [constructor|reflexivity]|].
  destruct (PyChars.is_digit a) eqn:Ea.
  - destruct (span_digits l) as [ds rest]. simpl in *. split.
    + constructor; assumption.
    + f_equal. exact IH2.
  - split; [constructor|reflexivity].
Qed.

Lemma semester_at_spec (l ds : list ascii) :
  semester_at l = Some ds ->
  ds <> [] /\ Forall (fun a => PyChars.is_digit a = true) ds /\
  exists rest, l = ds ++ rest.
Proof.
  unfold semester_at. destruct (span_digits_spec l) as [H1 H2].
  destruct (span_digits l) as [digits rest]. simpl in H1, H2.
  destruct digits as [|d digits]; [discriminate|].
  destruct (if ordinal_ending rest then skipn 2 rest else rest) as [|a r];
    [discriminate|].
  case_if; [|discriminate].
  intros H. inversion H; subst.
  split; [discriminate|]. split; [exact H1|]. exists rest. reflexivity.
Qed.

Lemma semester_search_spec (l ds : list ascii) :
  semester_search l = Some ds ->
  ds <> [] /\ Forall (fun a => PyChars.is_digit a = true) ds /\
  PyChars.contains ds l = true.
Proof.
  induction l as [|a l IH]; [discriminate|].
  cbn [semester_search]. destruct (semester_at (a :: l)) as [ds'|] eqn:E.
  - intros H. inversion H; subst.
    destruct (semester_at_spec _ _ E) as (H1 & H2 & rest & H3).
    split; [exact H1|]. split; [exact H2|].
    rewrite H3. apply contains_prefix.
    destruct ds as [|d ds]; [contradiction|]. cbn [PyChars.contains].
    pose proof (startswith_app (d :: ds) []) as Hsw.
    rewrite app_nil_r in Hsw. rewrite Hsw. reflexivity.
  - intros H. destruct (IH H) as (H1 & H2 & H3).
    split; [exact H1|]. split; [exact H2|].
    cbn [PyChars.contains]. rewrite H3. apply orb_true_r.
Qed.

(** X19.  A semester number returned by [extract_semester_from_text] is a
    non-empty run of decimal digits that stands in the text. *)
Theorem extract_semester_is_a_number (text number : string) :
  extract_semester_from_text text = Some number ->
  number <> "" /\
  Forall (fun a => PyChars.is_digit a = true) (PyChars.chars number) /\
  PyChars.contains (PyChars.chars number) (PyChars.chars text) = true.
Proof.
  unfold extract_semester_from_text.
  destruct (semester_search (PyChars.chars text)) as [ds|] eqn:E;
    [|discriminate].
  intros H. inversion H; subst. rewrite chars_str.
  destruct (semester_search_spec _ _ E) as (H1 & H2 & H3).
  split; [apply str_nonempty, H1|]. split; assumption.
Qed.

Lemma extract_semester_is_a_number_witness :
  extract_semester_from_text "Routine of the 3rd Semester" = Some "3" /\
  PyChars.contains (PyChars.chars "3")
    (PyChars.chars "Routine of the 3rd Semester") = true.
Proof.
  split; [reflexivity|].
  exact (proj2 (proj2 (extract_semester_is_a_number
                         "Routine of the 3rd Semester" "3" eq_refl))).
Defined.

(** ** Reading a document *)

Lemma join_nl_empty (parts : list string) :
  Forall (fun p => p <> "") parts -> PyStr.join_nl parts = "" -> parts = [].
Proof.
  destruct 1 as [|p parts Hp Hrest]; [reflexivity|].
  destruct parts as [|q parts]; simpl; [contradiction|].
  destruct p; [contradiction|discriminate].
Qed.

(** X20.  [read_docx_content] returns the empty text exactly when the file
    can be read and none of its paragraphs has text other than whitespace. *)
Theorem read_docx_content_empty (fs : FileSystem) (file_path : string) :
  read_docx_content fs file_path = Some "" <->
  exists doc, fs !! file_path = Some doc /\
    Forall (fun p => PyStr.strip p = "") (paragraphs doc).
Proof.
  unfold read_docx_content. split.
  - destruct (fs !! file_path) as [doc|]; [|discriminate]. simpl.
    intros H. injection H as E. exists doc. split; [reflexivity|].
    unfold doc_text in E. apply join_nl_empty in E.
    + apply List.Forall_forall. intros p Hp.
      destruct (String.eqb_spec (PyStr.strip p) "") as [Es|Es]; [exact Es|].
      exfalso.
      assert (Hin : In p (List.filter
                            (fun p => negb (String.eqb (PyStr.strip p) ""))
                            (paragraphs doc))).
      { apply filter_In. split; [exact Hp|].
        apply negb_true_iff, String.eqb_neq, Es. }
      rewrite E in Hin. contradiction.
    + apply List.Forall_forall. intros p Hp. apply filter_In in Hp as [_ Hp].
      apply negb_true_iff, String.eqb_neq in Hp. intros ->.
      apply Hp. reflexivity.
  - intros (doc & -> & Hall). simpl. f_equal. unfold doc_text.
    rewrite filter_none; [reflexivity|].
    intros p Hp. rewrite List.Forall_forall in Hall.
    rewrite (Hall p Hp). reflexivity.
Qed.

(** ** Blueprints after filling *)

Lemma firsts_same_grid (t t' : Table) (l : list (nat * nat)) :
  cell_at t' = cell_at t ->
  forall seen, firsts t' seen l = firsts t seen l.
Proof.
  intros H. induction l as [|rc l IH]; intros seen; simpl; [reflexivity|].
  rewrite H. destruct (decide (cell_at t rc.1 rc.2 ∈ seen)); rewrite IH;
    reflexivity.
Qed.

Lemma row_firsts_same_grid (t t' : Table) :
  rows t' = rows t -> columns t' = columns t -> cell_at t' = cell_at t ->
  row_firsts t' = row_firsts t.
Proof.
  intros Hr Hc Hat. unfold row_firsts, row_coords. rewrite Hr, Hc.
  apply flat_map_pointwise. intros r _. apply firsts_same_grid, Hat.
Qed.

(** X21.  Filling never changes the structure that the extractor sees: after
    either loop has returned, the blueprint of the table has the same
    regions and widths in the same order as before, and the text of each
    entry is the normalised text that its cell object now has. *)
Theorem filling_keeps_the_blueprint_regions (t t' : Table)
    (l : list Instruction) :
  execute_instructions t l = Returned t' \/
  routine_execute_instructions t l = Returned t' ->
  map region_of (cells (blueprint_of t')) =
    map region_of (cells (blueprint_of t)) /\
  map text (cells (blueprint_of t')) =
    map (fun d => normalize (cell_text t' (owner t d)))
        (cells (blueprint_of t)).
Proof.
  intros H. destruct (either_loop_returns t t' l H) as (l' & He & _).
  destruct (execute_shape _ _ _ He) as (Hr & Hc & Hat & Hw).
  rewrite !cells_firsts, (row_firsts_same_grid t t' Hr Hc Hat), !map_map.
  split; apply map_ext; intros [r c]; unfold region_of, owner; simpl;
    rewrite Hat, ?Hw; reflexivity.
Qed.

Lemma filling_keeps_the_blueprint_regions_witness :
  map region_of
      (cells (blueprint_of (set_text scenario_row_merged 2 "Chemistry"))) =
  map region_of (cells (blueprint_of scenario_row_merged)).
Proof.
  apply (filling_keeps_the_blueprint_regions scenario_row_merged
           (set_text scenario_row_merged 2 "Chemistry")
           [instr 1 1 "Chemistry"]).
  left. reflexivity.
Defined.
